(** * TubeChef: a shallow embedding of [make_dinner.py]

    The script is a linear pipeline over four third-party services.  The
    embedding keeps the Python text of every function and makes the three
    things the script leaves implicit explicit:

    - the outside world (the services, the clock, standard input) is a
      record of operations over an abstract [World] state, each of which
      either returns a value or raises;
    - every function runs in a small monad that threads the world, carries
      a raised exception outwards until a [try] reifies it, and records
      the observable events (prints, calls of the module's own functions,
      third-party calls with their outcome) in program order;
    - Python objects coming back from the services are JSON-like values,
      so that [.get] on something that is not a dict raises as it does in
      Python.

    A Python [str] is represented by the [string] of its UTF-8 bytes.  An
    exception is an instance of [Exception], the class both handlers of
    the script name.  The statements at module level (loading the
    environment, constructing the tool set, the LLM client and the
    transcript reader) run before [main]; what they leave behind are the
    configuration values and the operations of the record [Externals]. *)

From Stdlib Require Import String Ascii List NArith ZArith Bool Arith Lia.
From Stdlib Require Import SpecFloat DecimalString.
Import ListNotations.
Open Scope string_scope.

(** ** Python values *)

Definition LF : string := String (ascii_of_nat 10) EmptyString.

(** What [json.loads] (and the service clients built on it) can hand back. *)
#[local] Set Warnings "-register-all".
Inductive json : Type :=
| JNone
| JBool (b : bool)
| JInt (z : Z)
| JFloat (f : spec_float)
| JStr (s : string)
| JList (l : list json)
| JDict (d : list (string * json)).

(** An instance of (a subclass of) [Exception]: its class name and [str(e)]. *)
Record exn : Type := PyExc { exc_class : string; exc_str : string }.

Inductive result (A : Type) : Type :=
| Ok (a : A)
| Raise (e : exn).
Arguments Ok {A} a.
Arguments Raise {A} e.

Definition is_raise {A} (r : result A) : bool :=
  match r with Raise _ => true | Ok _ => false end.

Definition py_type_name (v : json) : string :=
  match v with
  | JNone => "NoneType"
  | JBool _ => "bool"
  | JInt _ => "int"
  | JFloat _ => "float"
  | JStr _ => "str"
  | JList _ => "list"
  | JDict _ => "dict"
  end.

(** [bool(v)]: what [if not v] tests. *)
Definition truthy (v : json) : bool :=
  match v with
  | JNone => false
  | JBool b => b
  | JInt z => negb (Z.eqb z 0)
  | JFloat (S754_zero _) => false
  | JFloat _ => true
  | JStr s => negb (String.eqb s "")
  | JList l => match l with [] => false | _ :: _ => true end
  | JDict d => match d with [] => false | _ :: _ => true end
  end.

(** [v is True]. *)
Definition is_True (v : json) : bool :=
  match v with JBool true => true | _ => false end.

Fixpoint assoc {A} (k : string) (d : list (string * A)) : option A :=
  match d with
  | [] => None
  | (k', v) :: d' => if String.eqb k' k then Some v else assoc k d'
  end.

Definition AttributeError (v : json) (attr : string) : exn :=
  PyExc "AttributeError"
        ("'" ++ py_type_name v ++ "' object has no attribute '" ++ attr ++ "'").

Definition KeyError (key : string) : exn :=
  PyExc "KeyError" ("'" ++ key ++ "'").

Definition TypeError (msg : string) : exn := PyExc "TypeError" msg.

(** [v.get(key, default)]: only a dict has the method. *)
Definition py_get (v : json) (key : string) (default : json) : result json :=
  match v with
  | JDict d => Ok (match assoc key d with Some x => x | None => default end)
  | _ => Raise (AttributeError v "get")
  end.

(** [v[key]] for a string key. *)
Definition py_getitem (v : json) (key : string) : result json :=
  match v with
  | JDict d =>
      match assoc key d with Some x => Ok x | None => Raise (KeyError key) end
  | JList _ =>
      Raise (TypeError "list indices must be integers or slices, not str")
  | JStr _ => Raise (TypeError "string indices must be integers, not 'str'")
  | _ => Raise (TypeError ("'" ++ py_type_name v ++ "' object is not subscriptable"))
  end.

(** Length in bytes of the UTF-8 sequence introduced by a lead byte. *)
Definition utf8_width (c : ascii) : nat :=
  let n := nat_of_ascii c in
  if (n <? 192)%nat then 1
  else if (n <? 224)%nat then 2
  else if (n <? 240)%nat then 3
  else 4.

Fixpoint utf8_take (n : nat) (s : string) : string * string :=
  match n, s with
  | S n', String c s' => let (a, b) := utf8_take n' s' in (String c a, b)
  | _, _ => (EmptyString, s)
  end.

(** The characters of a [str], one string per code point. *)
Fixpoint utf8_chars (fuel : nat) (s : string) : list string :=
  match fuel, s with
  | S fuel', String c s' =>
      let (a, b) := utf8_take (utf8_width c - 1) s' in
      String c a :: utf8_chars fuel' b
  | _, _ => []
  end.

(** [iter(v)] run to exhaustion: the items a [for] loop over [v] sees. *)
Definition py_iter (v : json) : result (list json) :=
  match v with
  | JList l => Ok l
  | JDict d => Ok (map (fun kv => JStr (fst kv)) d)
  | JStr s => Ok (map JStr (utf8_chars (String.length s) s))
  | _ => Raise (TypeError ("'" ++ py_type_name v ++ "' object is not iterable"))
  end.

(** [sep.join(parts)]. *)
Fixpoint join (sep : string) (parts : list string) : string :=
  match parts with
  | [] => ""
  | [p] => p
  | p :: rest => p ++ sep ++ join sep rest
  end.

Definition bind_result {A B} (r : result A) (f : A -> result B) : result B :=
  match r with
  | Ok a => f a
  | Raise e => Raise e
  end.

Notation "x <- r ;;; k" := (bind_result r (fun x => k))
  (at level 61, r at next level, right associativity).

(** [page_response.get("data", {}).get("data", {}).get("id")]. *)
Definition nested_page_id (page_response : json) : result json :=
  data <- py_get page_response "data" (JDict []) ;;;
  inner <- py_get data "data" (JDict []) ;;;
  py_get inner "id" JNone.

Fixpoint mapM {A B} (f : A -> result B) (l : list A) : result (list B) :=
  match l with
  | [] => Ok []
  | x :: l' =>
      match f x with
      | Raise e => Raise e
      | Ok y => match mapM f l' with
                | Raise e => Raise e
                | Ok ys => Ok (y :: ys)
                end
      end
  end.

(** ** A [dict] with [str] keys and values

    Insertion ordered; assigning to a key already present keeps its place. *)
Definition pydict : Type := list (string * string).

Definition dict_keys (d : pydict) : list string := map fst d.

Fixpoint dict_set (d : pydict) (k v : string) : pydict :=
  match d with
  | [] => [(k, v)]
  | (k', v') :: d' =>
      if String.eqb k' k then (k', v) :: d' else (k', v') :: dict_set d' k v
  end.

Definition dict_getitem (d : pydict) (k : string) : result string :=
  match assoc k d with
  | Some v => Ok v
  | None => Raise (KeyError k)
  end.

(** The representation invariant of a dict: no key occurs twice. *)
Definition dict_wf (d : pydict) : Prop := NoDup (dict_keys d).

(** ** [datetime] and [strftime] *)

Record datetime : Type := { year : N; month : N; day : N }.

(** [datetime.MINYEAR <= year <= datetime.MAXYEAR] and calendar ranges. *)
Definition valid_date (d : datetime) : Prop :=
  (1 <= year d <= 9999 /\ 1 <= month d <= 12 /\ 1 <= day d <= 31)%N.

Definition decimal (n : N) : string :=
  NilZero.string_of_uint (N.to_uint n).

Fixpoint zeros (n : nat) : string :=
  match n with 0 => "" | S n' => String "0" (zeros n') end.

(** Decimal, zero-padded on the left to [width] characters. *)
Definition zero_padded (width : nat) (n : N) : string :=
  let s := decimal n in zeros (width - String.length s) ++ s.

(** The directives of the format language the script uses; any other
    character after [%] is kept as it is written.  CPython hands the
    format to the C library: [%m] and [%d] are two digits, and [%Y] is
    the year in decimal as glibc writes it, without padding, so that a
    year below 1000 comes out with fewer than four digits. *)
Fixpoint strftime (fmt : string) (d : datetime) : string :=
  match fmt with
  | EmptyString => ""
  | String "%" (String "Y" rest) => decimal (year d) ++ strftime rest d
  | String "%" (String "m" rest) => zero_padded 2 (month d) ++ strftime rest d
  | String "%" (String "d" rest) => zero_padded 2 (day d) ++ strftime rest d
  | String c rest => String c (strftime rest d)
  end.

(** ** Regular expressions, as [re] matches them

    A backtracking matcher: [alternatives r s caps] lists, in the order
    the engine tries them, every way [r] can match a prefix of [s], each
    as the unread rest of [s] with the groups captured so far.  The first
    element is the match [re] reports.  Matching runs over UTF-8 bytes;
    the pattern of the script starts and ends every piece on an ASCII
    character, so it matches the same substrings as over code points. *)

Inductive regex : Type :=
| Eps
| Chr (c : ascii)
| Set_ (p : ascii -> bool)
| Seq (r1 r2 : regex)
| Alt (r1 r2 : regex)
| Star (greedy : bool) (r : regex)
| Group (n : nat) (r : regex).

Definition captures : Type := nat -> option string.

Definition no_captures : captures := fun _ => None.

Definition set_capture (n : nat) (v : string) (caps : captures) : captures :=
  fun m => if Nat.eqb m n then Some v else caps m.

(** What was read between [s] and its suffix [rest]. *)
Definition consumed (s rest : string) : string :=
  substring 0 (String.length s - String.length rest) s.

(** Repetition.  [n] bounds the number of iterations that read something,
    and is the length of [s] at the call; an iteration that reads nothing
    is not repeated. *)
Fixpoint star_iter (n : nat) (greedy : bool)
         (step : string -> captures -> list (string * captures))
         (s : string) (caps : captures) : list (string * captures) :=
  match n with
  | 0 => [(s, caps)]
  | S n' =>
      let more :=
        flat_map (fun sc =>
                    if (String.length (fst sc) <? String.length s)%nat
                    then star_iter n' greedy step (fst sc) (snd sc)
                    else [])
                 (step s caps) in
      if greedy then (more ++ [(s, caps)])%list else (s, caps) :: more
  end.

Fixpoint alternatives (r : regex) : string -> captures -> list (string * captures) :=
  match r with
  | Eps => fun s caps => [(s, caps)]
  | Chr c => fun s caps =>
      match s with
      | String c' s' => if Ascii.eqb c' c then [(s', caps)] else []
      | EmptyString => []
      end
  | Set_ p => fun s caps =>
      match s with
      | String c' s' => if p c' then [(s', caps)] else []
      | EmptyString => []
      end
  | Seq r1 r2 => fun s caps =>
      flat_map (fun sc => alternatives r2 (fst sc) (snd sc)) (alternatives r1 s caps)
  | Alt r1 r2 => fun s caps =>
      (alternatives r1 s caps ++ alternatives r2 s caps)%list
  | Star greedy r' => fun s caps =>
      star_iter (String.length s) greedy (alternatives r') s caps
  | Group n r' => fun s caps =>
      map (fun sc => (fst sc, set_capture n (consumed s (fst sc)) (snd sc)))
          (alternatives r' s caps)
  end.

(** [pattern.match(s)]: the first alternative, if there is one. *)
Definition match_here (r : regex) (s : string) : option (string * captures) :=
  hd_error (alternatives r s no_captures).

(** The scan of [re.findall]: the leftmost match, then on from where it
    ended; one character further where nothing matches, up to the end of
    the string.  A match that reads nothing is recorded and the scan moves
    one character on.  [fuel] bounds the number of start positions and is
    more than the length of [s]. *)
Fixpoint scan (fuel : nat) (r : regex) (s : string) : list captures :=
  match fuel with
  | 0 => []
  | S fuel' =>
      let next :=
        match s with
        | EmptyString => []
        | String _ s' => scan fuel' r s'
        end in
      match match_here r s with
      | Some (rest, caps) =>
          caps :: (if (String.length rest <? String.length s)%nat
                   then scan fuel' r rest
                   else next)
      | None => next
      end
  end.

(** A group that took no part in the match reads as the empty string. *)
Definition group (n : nat) (caps : captures) : string :=
  match caps n with
  | Some v => v
  | None => ""
  end.

(** [re.findall] for a pattern with two groups: the list of pairs. *)
Definition findall (r : regex) (s : string) : list (string * string) :=
  map (fun caps => (group 1 caps, group 2 caps)) (scan (S (String.length s)) r s).

(** *** The pattern of [extract_video_links] *)

Fixpoint lit (s : string) : regex :=
  match s with
  | EmptyString => Eps
  | String c EmptyString => Chr c
  | String c s' => Seq (Chr c) (lit s')
  end.

Definition plus (r : regex) : regex := Seq r (Star true r).

Definition in_range (lo hi : nat) (c : ascii) : bool :=
  let n := nat_of_ascii c in ((lo <=? n) && (n <=? hi))%nat.

Definition bytes (l : list nat) : string :=
  string_of_list_ascii (map ascii_of_nat l).

(** [.] without [re.DOTALL]: anything but a line feed. *)
Definition dot : regex := Set_ (fun c => negb (Ascii.eqb c (ascii_of_nat 10))).

(** [\s] of a [str] pattern: the characters [str.isspace] accepts, here
    by their UTF-8 encodings. *)
Definition ascii_space (c : ascii) : bool :=
  in_range 9 13 c || in_range 28 32 c.

Definition space : regex :=
  Alt (Set_ ascii_space)                                     (* \t\n\v\f\r, 1C-1F, space *)
 (Alt (Seq (lit (bytes [194])) (Set_ (fun c => in_range 133 133 c || in_range 160 160 c)))
                                                             (* U+0085, U+00A0 *)
 (Alt (lit (bytes [225; 154; 128]))                          (* U+1680 *)
 (Alt (Seq (lit (bytes [226; 128]))
           (Set_ (fun c => in_range 128 138 c                (* U+2000 - U+200A *)
                           || in_range 168 169 c             (* U+2028, U+2029 *)
                           || in_range 175 175 c)))          (* U+202F *)
 (Alt (lit (bytes [226; 129; 159]))                          (* U+205F *)
      (lit (bytes [227; 128; 128]))))))                      (* U+3000 *).

(** [[a-zA-Z0-9_-]] *)
Definition id_char (c : ascii) : bool :=
  in_range 97 122 c || in_range 65 90 c || in_range 48 57 c
  || Ascii.eqb c "_" || Ascii.eqb c "-".

Definition watch_prefix : string := "https://www.youtube.com/watch?v=".

(** [(https://www\.youtube\.com/watch\?v=[a-zA-Z0-9_-]+)] without the group. *)
Definition link_regex : regex := Seq (lit watch_prefix) (plus (Set_ id_char)).

(** [r'\*\*Title:\*\* (.*?)\n\s*\*\*Link:\*\* (https://www\.youtube\.com/watch\?v=[a-zA-Z0-9_-]+)'] *)
Definition pattern : regex :=
  Seq (lit "**Title:** ")
 (Seq (Group 1 (Star false dot))
 (Seq (Chr (ascii_of_nat 10))
 (Seq (Star true space)
 (Seq (lit "**Link:** ")
      (Group 2 link_regex))))).

Definition extract_video_links (text_response : string)
  : list string * list string :=
  let matches := findall pattern text_response in
  fold_left (fun acc m =>
               match acc, m with
               | (video_links, titles), (title, video_url) =>
                   ((video_links ++ [video_url])%list, (titles ++ [title])%list)
               end)
            matches ([], []).

(** ** The outside world *)

Inductive Action : Type :=
| YOUTUBE_SEARCH_YOU_TUBE
| YOUTUBE_VIDEO_DETAILS
| NOTION_CREATE_NOTION_PAGE
| NOTION_ADD_PAGE_CONTENT.

(** A document of the transcript reader: only [doc.text] is read. *)
Record Document : Type := { doc_text : string }.

(** The completion object of the LLM client: only [response.text] is read. *)
Record CompletionResponse : Type := { response_text : string }.

(** Everything the module reaches outside itself.  Each service operation
    takes the world to an outcome and a new world, so that two calls with
    the same arguments may answer differently. *)
Record Externals : Type := {
  World : Type;
  (** [os.getenv] of the three configuration values, read at import. *)
  GOOGLE_API_KEY : option string;
  NOTION_API_KEY : option string;
  NOTION_PARENT_ID : option string;
  (** [repr] of an object that is not a [str]. *)
  py_repr : json -> string;
  (** [input(prompt)]. *)
  sys_input : string -> World -> result string * World;
  (** [build("youtube", "v3", developerKey=key)]. *)
  youtube_build : option string -> World -> result unit * World;
  (** [youtube.search().list(q=q, part="snippet", type="video",
      maxResults=n, relevanceLanguage="en").execute()]. *)
  youtube_search_list_execute : string -> Z -> World -> result json * World;
  (** [loader.load_data(ytlinks=links)]. *)
  loader_load_data : list string -> World -> result (list Document) * World;
  (** [llm.complete(prompt)]; [None] stands for a falsy return value. *)
  llm_complete : string -> World -> result (option CompletionResponse) * World;
  (** [toolset.execute_action(action=a, params=p)]. *)
  toolset_execute_action : Action -> json -> World -> result json * World;
  (** [datetime.today()]. *)
  datetime_today : World -> datetime * World
}.

(** The functions of the module. *)
Inductive Func : Type :=
| F_search_youtube_videos_api
| F_get_video_transcripts
| F_select_best_recipe
| F_create_notion_page
| F_main.

(** What a run does that can be observed, in program order. *)
Inductive Event : Type :=
| EvEnter (f : Func)
| EvPrint (line : string)
| EvInput (prompt : string) (r : result string)
| EvBuild (developerKey : option string) (r : result unit)
| EvSearch (q : string) (maxResults : Z) (r : result json)
| EvLoadData (ytlinks : list string) (r : result (list Document))
| EvComplete (prompt : string) (r : result (option CompletionResponse))
| EvExecuteAction (action : Action) (params : json) (r : result json)
| EvToday (d : datetime).

Definition entered (f : Func) (ev : Event) : bool :=
  match ev, f with
  | EvEnter F_search_youtube_videos_api, F_search_youtube_videos_api => true
  | EvEnter F_get_video_transcripts, F_get_video_transcripts => true
  | EvEnter F_select_best_recipe, F_select_best_recipe => true
  | EvEnter F_create_notion_page, F_create_notion_page => true
  | EvEnter F_main, F_main => true
  | _, _ => false
  end.

Definition is_load_data (ev : Event) : bool :=
  match ev with EvLoadData _ _ => true | _ => false end.

Definition is_complete (ev : Event) : bool :=
  match ev with EvComplete _ _ => true | _ => false end.

Definition is_execute_action (ev : Event) : bool :=
  match ev with EvExecuteAction _ _ _ => true | _ => false end.

Definition is_append_content (ev : Event) : bool :=
  match ev with
  | EvExecuteAction NOTION_ADD_PAGE_CONTENT _ _ => true
  | _ => false
  end.

Definition is_create_page (ev : Event) : bool :=
  match ev with
  | EvExecuteAction NOTION_CREATE_NOTION_PAGE _ _ => true
  | _ => false
  end.

(** No event of the trace satisfies [p]. *)
Definition never (p : Event -> bool) (tr : list Event) : Prop :=
  existsb p tr = false.

Definition count (p : Event -> bool) (tr : list Event) : nat :=
  length (filter p tr).

(** ** The monad of the script *)

Section Program.

Variable E : Externals.

Definition M (A : Type) : Type := World E -> result A * World E * list Event.

Definition ret {A} (a : A) : M A := fun w => (Ok a, w, []).

Definition bind {A B} (m : M A) (f : A -> M B) : M B :=
  fun w =>
    match m w with
    | (Ok a, w1, t1) =>
        match f a w1 with (r, w2, t2) => (r, w2, (t1 ++ t2)%list) end
    | (Raise e, w1, t1) => (Raise e, w1, t1)
    end.

(** The body of a [try]: its exception, if any, becomes a value. *)
Definition try {A} (m : M A) : M (result A) :=
  fun w => match m w with (r, w1, t1) => (Ok r, w1, t1) end.

(** A pure computation that may raise. *)
Definition lift {A} (r : result A) : M A := fun w => (r, w, []).

Definition emit (ev : Event) : M unit := fun w => (Ok tt, w, [ev]).

Definition print (line : string) : M unit := emit (EvPrint line).

(** A third-party call: run it on the world and record it with its outcome. *)
Definition call {A} (op : World E -> result A * World E)
           (record : result A -> Event) : M A :=
  fun w => match op w with (r, w1) => (r, w1, [record r]) end.

(** [datetime.today()]: reads the clock. *)
Definition datetime_today_ : M datetime :=
  fun w => match datetime_today E w with (d, w1) => (Ok d, w1, [EvToday d]) end.

Notation "x <- m ;; k" := (bind m (fun x => k))
  (at level 61, m at next level, right associativity).
Notation "m ;; k" := (bind m (fun _ => k))
  (at level 61, right associativity).

(** [str(v)], as an f-string field formats it. *)
Definition py_str (v : json) : string :=
  match v with
  | JStr s => s
  | _ => py_repr E v
  end.

Definition of_optional (o : option string) : json :=
  match o with Some s => JStr s | None => JNone end.

(** ** The functions of [make_dinner.py] *)

Definition search_youtube_videos_api (query : string) (max_results : Z)
  : M (list string) :=
  emit (EvEnter F_search_youtube_videos_api) ;;
  call (youtube_build E (GOOGLE_API_KEY E)) (EvBuild (GOOGLE_API_KEY E)) ;;
  attempt <- try (call (youtube_search_list_execute E query max_results)
                       (EvSearch query max_results)) ;;
  match attempt with
  | Raise e =>
      print ("âŒ YouTube API request failed: " ++ exc_str e) ;;
      ret []
  | Ok search_response =>
      items <- lift (r <- py_get search_response "items" (JList []) ;;; py_iter r) ;;
      lift (mapM (fun item =>
                    id <- py_getitem item "id" ;;;
                    videoId <- py_getitem id "videoId" ;;;
                    Ok ("https://www.youtube.com/watch?v=" ++ py_str videoId))
                 items)
  end.

Fixpoint for_each_url (video_urls : list string) (transcripts : pydict)
  : M pydict :=
  match video_urls with
  | [] => ret transcripts
  | url :: rest =>
      attempt <- try (documents <- call (loader_load_data E [url])
                                        (EvLoadData [url]) ;;
                      ret (join "" (map doc_text documents))) ;;
      match attempt with
      | Ok transcript_text =>
          for_each_url rest (dict_set transcripts url transcript_text)
      | Raise e =>
          print ("âš ï¸ Failed to fetch transcript for " ++ url ++ ": " ++ exc_str e) ;;
          for_each_url rest transcripts
      end
  end.

Definition get_video_transcripts (video_urls : list string) : M pydict :=
  emit (EvEnter F_get_video_transcripts) ;;
  for_each_url video_urls [].

Definition system_instruction : string :=
  "You are a world-class chef and expert in analyzing recipes. Given a transcript from a "
  ++ "cooking video, your goal is to select the best recipe based on the shortest cooking time "
  ++ "and least complexity. Once selected, generate a structured and easy-to-follow recipe, "
  ++ "ensuring it remains concise (under 2000 characters). The recipe should include clear steps, "
  ++ "ingredients, and cooking instructions in a logical sequence. At the end of the recipe, provide "
  ++ "a reference to the original video.".

Definition select_best_recipe (transcripts : pydict) : M (option string) :=
  emit (EvEnter F_select_best_recipe) ;;
  match transcripts with
  | [] =>
      print "âŒ No transcripts available for analysis." ;;
      ret None
  | _ :: _ =>
      blocks <- lift (mapM (fun url =>
                              transcript <- dict_getitem transcripts url ;;;
                              Ok ("Video: " ++ url ++ LF ++ transcript))
                           (dict_keys transcripts)) ;;
      let combined_transcripts := join (LF ++ LF) blocks in
      response <- call (llm_complete E (system_instruction ++ LF ++ LF
                                        ++ combined_transcripts))
                       (EvComplete (system_instruction ++ LF ++ LF
                                    ++ combined_transcripts)) ;;
      ret (match response with
           | Some r => Some (response_text r)
           | None => None
           end)
  end.

Definition create_page_params (notion_title : string) : json :=
  JDict [("parent_id", of_optional (NOTION_PARENT_ID E));
         ("title", JStr notion_title)].

Definition add_content_params (page_id : json) (recipe_content : string) : json :=
  JDict [("parent_block_id", page_id);
         ("content_block", JDict [("content", JStr recipe_content)])].

Definition create_notion_page (recipe_name recipe_content : string) : M unit :=
  emit (EvEnter F_create_notion_page) ;;
  today <- datetime_today_ ;;
  let today_date := strftime "%Y-%m-%d" today in
  let notion_title := "Dinner on " ++ today_date ++ ": " ++ recipe_name in
  page_response <- call (toolset_execute_action E NOTION_CREATE_NOTION_PAGE
                                                (create_page_params notion_title))
                        (EvExecuteAction NOTION_CREATE_NOTION_PAGE
                                         (create_page_params notion_title)) ;;
  page_id <- lift (nested_page_id page_response) ;;
  if negb (truthy page_id) then
    print ("âŒ Failed to create Notion page. Response: " ++ py_str page_response)
  else
    content_response <- call (toolset_execute_action E NOTION_ADD_PAGE_CONTENT
                                (add_content_params page_id recipe_content))
                             (EvExecuteAction NOTION_ADD_PAGE_CONTENT
                                (add_content_params page_id recipe_content)) ;;
    successfull <- lift (py_get content_response "successfull" JNone) ;;
    if is_True successfull then
      print ("âœ… Recipe '" ++ recipe_name ++ "' saved in Notion!")
    else
      print ("âŒ Failed to add content. Response: " ++ py_str content_response).

(** [bool(best_recipe)] for an [Optional[str]]. *)
Definition recipe_truthy (best_recipe : option string) : bool :=
  match best_recipe with
  | None => false
  | Some s => negb (String.eqb s "")
  end.

(** The string a truthy [Optional[str]] is. *)
Definition recipe_string (best_recipe : option string) : string :=
  match best_recipe with
  | Some s => s
  | None => ""
  end.

Definition main : M unit :=
  emit (EvEnter F_main) ;;
  recipe_name <- call (sys_input E "Enter the dish you want to make: ") (EvInput "Enter the dish you want to make: ") ;;
  print ("ğŸ” Searching for YouTube videos on '" ++ recipe_name ++ "'...") ;;
  video_urls <- search_youtube_videos_api recipe_name 3 ;;
  match video_urls with
  | [] =>
      print "âŒ No videos found."
  | _ :: _ =>
      print "ğŸ“œ Extracting transcripts..." ;;
      transcripts <- get_video_transcripts video_urls ;;
      print "ğŸ½ï¸ Selecting the best recipe..." ;;
      best_recipe <- select_best_recipe transcripts ;;
      if negb (recipe_truthy best_recipe) then
        print "âŒ No suitable recipe found."
      else
        print "ğŸ“ Saving to Notion..." ;;
        create_notion_page recipe_name (recipe_string best_recipe) ;;
        print "âœ… Process completed!"
  end.

End Program.

(** ** Vocabulary of the statements *)

(** One transcript under its label, as the prompt shows it. *)
Definition labeled_block (entry : string * string) : string :=
  "Video: " ++ fst entry ++ LF ++ snd entry.

(** The prompt the specification describes: the instruction, then one
    labeled block per entry of the mapping, in the order of the mapping. *)
Definition prompt_of (transcripts : pydict) : string :=
  system_instruction ++ LF ++ LF ++ join (LF ++ LF) (map labeled_block transcripts).

(** The entries of a mapping that belong to [url]. *)
Definition entries_for (url : string) (transcripts : pydict) : pydict :=
  filter (fun entry => String.eqb (fst entry) url) transcripts.

Definition occurs_in (x s : string) : Prop := exists a b, s = a ++ x ++ b.

(** The events each function of the pipeline can produce by itself. *)
Definition search_event (ev : Event) : bool :=
  match ev with
  | EvEnter F_search_youtube_videos_api => true
  | EvBuild _ _ | EvSearch _ _ _ | EvPrint _ => true
  | _ => false
  end.

Definition transcript_event (ev : Event) : bool :=
  match ev with
  | EvEnter F_get_video_transcripts => true
  | EvLoadData _ _ | EvPrint _ => true
  | _ => false
  end.

Definition select_event (ev : Event) : bool :=
  match ev with
  | EvEnter F_select_best_recipe => true
  | EvComplete _ _ | EvPrint _ => true
  | _ => false
  end.

(** Every event of the trace satisfies [p]. *)
Definition always (p : Event -> bool) (tr : list Event) : Prop :=
  forallb p tr = true.

(** The answer of [select_best_recipe] to an outcome of the completion. *)
Definition recipe_of (r : result (option CompletionResponse))
  : result (option string) :=
  match r with
  | Ok (Some response) => Ok (Some (response_text response))
  | Ok None => Ok None
  | Raise e => Raise e
  end.

(** The ISO 8601 calendar date, [YYYY-MM-DD], digit by digit. *)
Definition digit (n : N) : ascii := ascii_of_N (48 + n mod 10).

Definition four_digits (n : N) : string :=
  String (digit (n / 1000)) (String (digit (n / 100))
  (String (digit (n / 10)) (String (digit n) ""))).

Definition two_digits (n : N) : string :=
  String (digit (n / 10)) (String (digit n) "").

Definition iso_date (d : datetime) : string :=
  four_digits (year d) ++ "-" ++ two_digits (month d) ++ "-" ++ two_digits (day d).

Fixpoint all_chars (p : ascii -> bool) (s : string) : bool :=
  match s with
  | EmptyString => true
  | String c s' => p c && all_chars p s'
  end.

(** A watch URL: the prefix, then one or more characters of the class. *)
Definition watch_url (link : string) : Prop :=
  exists id, link = watch_prefix ++ id /\ id <> "" /\ all_chars id_char id = true.

(** The language of a regular expression, without priorities or groups. *)
Inductive Matches : regex -> string -> Prop :=
| MEps : Matches Eps ""
| MChr c : Matches (Chr c) (String c "")
| MSet p c : p c = true -> Matches (Set_ p) (String c "")
| MSeq r1 r2 x y : Matches r1 x -> Matches r2 y -> Matches (Seq r1 r2) (x ++ y)
| MAltL r1 r2 x : Matches r1 x -> Matches (Alt r1 r2) x
| MAltR r1 r2 x : Matches r2 x -> Matches (Alt r1 r2) x
| MStar0 g r : Matches (Star g r) ""
| MStarS g r x y : Matches r x -> Matches (Star g r) y -> Matches (Star g r) (x ++ y)
| MGroup n r x : Matches r x -> Matches (Group n r) x.

(** Whatever a matcher reads belongs to the language of the expression. *)
Definition sound (r : regex)
           (step : string -> captures -> list (string * captures)) : Prop :=
  forall s caps rest caps',
    In (rest, caps') (step s caps) -> exists x, s = x ++ rest /\ Matches r x.

(** A response in which every level the chain of [.get] walks through is a
    dict or missing, and the identifier is missing or falsy. *)
Definition absent_or (p : json -> bool) (key : string) (d : list (string * json)) : bool :=
  match assoc key d with
  | None => true
  | Some v => p v
  end.

Definition lacks_page_id (page_response : json) : bool :=
  match page_response with
  | JDict d =>
      match assoc "data" d with
      | None => true
      | Some (JDict d1) =>
          match assoc "data" d1 with
          | None => true
          | Some (JDict d2) => absent_or (fun v => negb (truthy v)) "id" d2
          | Some _ => false
          end
      | Some _ => false
      end
  | _ => false
  end.

(** The title [create_notion_page] gives the page on the date [d]. *)
Definition notion_title (d : datetime) (recipe_name : string) : string :=
  "Dinner on " ++ strftime "%Y-%m-%d" d ++ ": " ++ recipe_name.

(** The events of [create_notion_page] up to the answer of "create page". *)
Definition create_page_events (E : Externals) (d : datetime)
           (recipe_name : string) (r : result json) : list Event :=
  [EvEnter F_create_notion_page;
   EvToday d;
   EvExecuteAction NOTION_CREATE_NOTION_PAGE
                   (create_page_params E (notion_title d recipe_name)) r].

(** The events of [main] up to the call of the search step. *)
Definition main_events (recipe_name : string) : list Event :=
  [EvEnter F_main;
   EvInput "Enter the dish you want to make: " (Ok recipe_name);
   EvPrint ("ğŸ” Searching for YouTube videos on '" ++ recipe_name ++ "'...")].

(** No identifier comes out of the response: the chain of [.get] raises
    or gives a falsy value. *)
Definition no_page_id (page_response : json) : bool :=
  match nested_page_id page_response with
  | Ok page_id => negb (truthy page_id)
  | Raise _ => true
  end.

Definition is_print (ev : Event) : bool :=
  match ev with EvPrint _ => true | _ => false end.

Definition is_today (ev : Event) : bool :=
  match ev with EvToday _ => true | _ => false end.

(** ** Scripted worlds

    Worlds in which every service answers as a script says; the state
    counts the third-party calls made so far. *)

Record Script : Type := {
  on_search : result json;
  on_load : string -> result (list Document);
  on_complete : result (option CompletionResponse);
  on_create : result json;
  on_append : result json
}.

Definition scripted (s : Script) : Externals := {|
  World := nat;
  GOOGLE_API_KEY := Some "g-key";
  NOTION_API_KEY := Some "n-key";
  NOTION_PARENT_ID := Some "parent";
  py_repr := fun _ => "{...}";
  sys_input := fun _ w => (Ok "garlic butter shrimp", S w);
  youtube_build := fun _ w => (Ok tt, S w);
  youtube_search_list_execute := fun _ _ w => (on_search s, S w);
  loader_load_data := fun links w =>
    (match links with
     | [url] => on_load s url
     | _ => Raise (PyExc "ValueError" "one link expected")
     end, S w);
  llm_complete := fun _ w => (on_complete s, S w);
  toolset_execute_action := fun a _ w =>
    (match a with
     | NOTION_CREATE_NOTION_PAGE => on_create s
     | NOTION_ADD_PAGE_CONTENT => on_append s
     | _ => Raise (PyExc "ValueError" "unexpected action")
     end, S w);
  datetime_today := fun w => ({| year := 2024; month := 6; day := 1 |}, w)
|}.

Definition video (id : string) : json :=
  JDict [("id", JDict [("videoId", JStr id)])].

Definition boom : exn := PyExc "RuntimeError" "service unavailable".

Definition page_created : json :=
  JDict [("data", JDict [("data", JDict [("id", JStr "page-1")])])].

(** All services answer. *)
Definition happy : Script := {|
  on_search := Ok (JDict [("items", JList [video "aaa"; video "bbb"])]);
  on_load := fun url => Ok [ {| doc_text := "boil " |}; {| doc_text := "water" |} ];
  on_complete := Ok (Some {| response_text := "Boil water." |});
  on_create := Ok page_created;
  on_append := Ok (JDict [("successfull", JBool true)])
|}.

Definition search_down : Script := {|
  on_search := Raise boom;
  on_load := on_load happy;
  on_complete := on_complete happy;
  on_create := on_create happy;
  on_append := on_append happy
|}.

Definition nothing_found : Script := {|
  on_search := Ok (JDict []);
  on_load := on_load happy;
  on_complete := on_complete happy;
  on_create := on_create happy;
  on_append := on_append happy
|}.

Definition no_transcripts : Script := {|
  on_search := on_search happy;
  on_load := fun _ => Raise boom;
  on_complete := on_complete happy;
  on_create := on_create happy;
  on_append := on_append happy
|}.

Definition llm_down : Script := {|
  on_search := on_search happy;
  on_load := on_load happy;
  on_complete := Raise boom;
  on_create := on_create happy;
  on_append := on_append happy
|}.

Definition llm_silent : Script := {|
  on_search := on_search happy;
  on_load := on_load happy;
  on_complete := Ok (Some {| response_text := "" |});
  on_create := on_create happy;
  on_append := on_append happy
|}.

Definition page_without_id : Script := {|
  on_search := on_search happy;
  on_load := on_load happy;
  on_complete := on_complete happy;
  on_create := Ok (JDict [("data", JDict [("data", JDict [])]); ("successfull", JBool false)]);
  on_append := on_append happy
|}.

Definition page_data_null : Script := {|
  on_search := on_search happy;
  on_load := on_load happy;
  on_complete := on_complete happy;
  on_create := Ok (JDict [("data", JNone); ("successfull", JBool false)]);
  on_append := on_append happy
|}.

Definition notion_down : Script := {|
  on_search := on_search happy;
  on_load := on_load happy;
  on_complete := on_complete happy;
  on_create := Raise boom;
  on_append := on_append happy
|}.

(** A reply in the shape the pattern expects: two entries match, the one
    without an identifier does not. *)
Definition sample_response : string :=
  "intro **Title:** Easy Pasta" ++ LF
  ++ "   **Link:** https://www.youtube.com/watch?v=abc_-123!! and" ++ LF
  ++ "**Title:** B" ++ LF
  ++ "**Link:** https://www.youtube.com/watch?v=" ++ LF
  ++ "**Title:** C" ++ LF ++ LF
  ++ " **Link:** https://www.youtube.com/watch?v=Z9 tail".

(** ** Vocabulary of the further properties *)

(** [item['id']['videoId']]. *)
Definition video_id_of (item : json) : result json :=
  id <- py_getitem item "id" ;;; py_getitem id "videoId".

Definition is_build (ev : Event) : bool :=
  match ev with EvBuild _ _ => true | _ => false end.

Definition is_search (ev : Event) : bool :=
  match ev with EvSearch _ _ _ => true | _ => false end.

(** The events [create_notion_page] can produce by itself. *)
Definition publish_event (ev : Event) : bool :=
  match ev with
  | EvEnter F_create_notion_page => true
  | EvToday _ | EvExecuteAction _ _ _ | EvPrint _ => true
  | _ => false
  end.

(** The arguments of the calls of the transcript loader, in order. *)
Definition fetched_links (tr : list Event) : list (list string) :=
  flat_map (fun ev => match ev with EvLoadData links _ => [links] | _ => [] end) tr.

(** What an answered fetch stores; any other event stores nothing. *)
Definition store_fetch (transcripts : pydict) (ev : Event) : pydict :=
  match ev with
  | EvLoadData [url] (Ok documents) =>
      dict_set transcripts url (join "" (map doc_text documents))
  | _ => transcripts
  end.

(** The mapping the answered fetches of a trace build, replayed in order. *)
Definition replay (tr : list Event) : pydict := fold_left store_fetch tr [].

Definition starts_with (p s : string) : Prop := exists rest, s = p ++ rest.

Definition not_line_feed (c : ascii) : bool :=
  negb (Ascii.eqb c (ascii_of_nat 10)).

(** A group with the number [n] occurs in the expression. *)
Fixpoint has_group (n : nat) (r : regex) : bool :=
  match r with
  | Eps | Chr _ | Set_ _ => false
  | Seq r1 r2 | Alt r1 r2 => has_group n r1 || has_group n r2
  | Star _ r' => has_group n r'
  | Group m r' => Nat.eqb m n || has_group n r'
  end.

(** A matcher that leaves the groups it does not contain as they were. *)
Definition keeps (n : nat)
           (step : string -> captures -> list (string * captures)) : Prop :=
  forall s caps rest caps',
    In (rest, caps') (step s caps) -> caps' n = caps n.

(** A run of main in which the page is not created for lack of an
    identifier, and one in which the append is flagged as failed. *)
Definition append_refused : Script := {|
  on_search := on_search happy;
  on_load := on_load happy;
  on_complete := on_complete happy;
  on_create := on_create happy;
  on_append := Ok (JDict [("successfull", JBool false); ("error", JStr "denied")])
|}.

Definition one_transcript : Script := {|
  on_search := on_search happy;
  on_load := fun url =>
    if String.eqb url "https://www.youtube.com/watch?v=aaa"
    then Raise boom
    else Ok [ {| doc_text := "fry" |} ];
  on_complete := on_complete happy;
  on_create := on_create happy;
  on_append := on_append happy
|}.

Definition no_items : Script := nothing_found.

Definition channel_item : Script := {|
  on_search := Ok (JDict [("items", JList [video "aaa";
                                            JDict [("id", JDict [("channelId", JStr "c1")])]])]);
  on_load := on_load happy;
  on_complete := on_complete happy;
  on_create := on_create happy;
  on_append := on_append happy
|}.

(** A world in which the search client cannot be built. *)
Definition build_down : Externals := {|
  World := nat;
  GOOGLE_API_KEY := Some "g-key";
  NOTION_API_KEY := Some "n-key";
  NOTION_PARENT_ID := Some "parent";
  py_repr := fun _ => "{...}";
  sys_input := fun _ w => (Ok "garlic butter shrimp", S w);
  youtube_build := fun _ w => (Raise boom, S w);
  youtube_search_list_execute := fun _ _ w => (Raise boom, S w);
  loader_load_data := fun _ w => (Raise boom, S w);
  llm_complete := fun _ w => (Raise boom, S w);
  toolset_execute_action := fun _ _ w => (Raise boom, S w);
  datetime_today := fun w => ({| year := 2024; month := 6; day := 1 |}, w)
|}.

(** A world whose loader tells its answers apart: the text of a transcript
    names the number of third-party calls made before it. *)
Definition takes : Externals := {|
  World := nat;
  GOOGLE_API_KEY := Some "g-key";
  NOTION_API_KEY := Some "n-key";
  NOTION_PARENT_ID := Some "parent";
  py_repr := fun _ => "{...}";
  sys_input := fun _ w => (Ok "garlic butter shrimp", S w);
  youtube_build := fun _ w => (Ok tt, S w);
  youtube_search_list_execute := fun _ _ w => (on_search happy, S w);
  loader_load_data := fun _ w =>
    (Ok [ {| doc_text := "take " ++ decimal (N.of_nat w) |} ], S w);
  llm_complete := fun _ w => (on_complete happy, S w);
  toolset_execute_action := fun _ _ w => (on_create happy, S w);
  datetime_today := fun w => ({| year := 2024; month := 6; day := 1 |}, w)
|}.

(** The pair stands in the text as the pattern reads it: the title after
    its marker up to the end of the line, white space, the link after its
    marker. *)
Definition occurs_as_pair (text title link : string) : Prop :=
  exists before ws after,
    text = before ++ "**Title:** " ++ title ++ LF ++ ws ++ "**Link:** " ++ link ++ after /\
    all_chars not_line_feed title = true /\
    Matches (Star true space) ws /\
    watch_url link.

Definition not_star (c : ascii) : bool := negb (Ascii.eqb c "*").

(** The parts of the pattern after the title marker, from the inside. *)
Definition link_part : regex := Seq (lit "**Link:** ") (Group 2 link_regex).

Definition space_part : regex := Seq (Star true space) link_part.

Definition line_end_part : regex := Seq (Chr (ascii_of_nat 10)) space_part.
(** * Properties *)

(** ** Strings and lists *)

Lemma append_assoc (a b c : string) : (a ++ b) ++ c = a ++ b ++ c.
Proof. induction a as [|ch a IH]; simpl; [reflexivity | now rewrite IH]. Qed.

Lemma append_nil_r (a : string) : a ++ "" = a.
Proof. induction a as [|ch a IH]; simpl; [reflexivity | now rewrite IH]. Qed.

Lemma length_append (a b : string) :
  String.length (a ++ b) = String.length a + String.length b.
Proof. induction a as [|ch a IH]; simpl; [reflexivity | now rewrite IH]. Qed.

Lemma never_app p tr1 tr2 :
  never p (tr1 ++ tr2) <-> never p tr1 /\ never p tr2.
Proof.
  unfold never. rewrite existsb_app. split.
  - intros H. apply orb_false_iff in H. exact H.
  - intros [H1 H2]. now rewrite H1, H2.
Qed.

Lemma always_app p tr1 tr2 :
  always p (tr1 ++ tr2) <-> always p tr1 /\ always p tr2.
Proof.
  unfold always. rewrite forallb_app. split.
  - intros H. apply andb_true_iff in H. exact H.
  - intros [H1 H2]. now rewrite H1, H2.
Qed.

(** A trace made of the events of one function holds none of another's. *)
Lemma always_never (allowed p : Event -> bool) tr :
  (forall ev, allowed ev = true -> p ev = false) ->
  always allowed tr -> never p tr.
Proof.
  intros Hdisj. unfold always, never. induction tr as [|ev tr IH]; simpl.
  - reflexivity.
  - intros H. apply andb_true_iff in H. destruct H as [Hev Htr].
    rewrite (Hdisj ev Hev). simpl. now apply IH.
Qed.

(** ** Dicts *)

Lemma dict_set_keys_in d k v x :
  In x (dict_keys (dict_set d k v)) <-> In x (dict_keys d) \/ x = k.
Proof.
  induction d as [|[k' v'] d IH]; simpl.
  - intuition.
  - destruct (String.eqb_spec k' k) as [->|Hne]; simpl.
    + intuition.
    + rewrite IH. intuition.
Qed.

Lemma dict_set_wf d k v : dict_wf d -> dict_wf (dict_set d k v).
Proof.
  unfold dict_wf. induction d as [|[k' v'] d IH]; simpl; intros Hwf.
  - constructor; [intros [] | constructor].
  - inversion Hwf as [|? ? Hnotin Hrest]; subst.
    destruct (String.eqb_spec k' k) as [->|Hne]; simpl.
    + constructor; assumption.
    + constructor.
      * intros Hin. apply (dict_set_keys_in d k v k') in Hin.
        destruct Hin as [Hin | ->]; [now apply Hnotin | now apply Hne].
      * now apply IH.
Qed.

Lemma assoc_of_entry (d : pydict) k v :
  dict_wf d -> In (k, v) d -> assoc k d = Some v.
Proof.
  unfold dict_wf. induction d as [|[k' v'] d IH]; simpl; intros Hwf Hin.
  - contradiction.
  - inversion Hwf as [|? ? Hnotin Hrest]; subst.
    destruct Hin as [Heq | Hin].
    + inversion Heq; subst. now rewrite String.eqb_refl.
    + destruct (String.eqb_spec k' k) as [->|Hne].
      * exfalso. apply Hnotin. change k with (fst (k, v)). now apply in_map.
      * now apply IH.
Qed.

Lemma entries_for_key (d : pydict) url :
  dict_wf d -> In url (dict_keys d) -> length (entries_for url d) = 1.
Proof.
  unfold dict_wf, entries_for. induction d as [|[k v] d IH]; simpl; intros Hwf Hin.
  - contradiction.
  - inversion Hwf as [|? ? Hnotin Hrest]; subst.
    destruct (String.eqb_spec k url) as [->|Hne]; simpl.
    + f_equal. clear IH Hin Hwf Hrest.
      induction d as [|[k' v'] d IH]; simpl; [reflexivity|].
      destruct (String.eqb_spec k' url) as [->|Hne].
      * exfalso. apply Hnotin. now left.
      * apply IH. intros H. apply Hnotin. now right.
    + destruct Hin as [Heq | Hin]; [contradiction|]. now apply IH.
Qed.

(** ** Runs of the monad *)

Ltac unfold_run :=
  unfold print; unfold bind, try, call, emit, ret, lift, datetime_today_.

Section Runs.

Variable E : Externals.

Lemma bind_ok {A B} (m : M E A) (f : A -> M E B) w a w1 t1 :
  m w = (Ok a, w1, t1) ->
  bind E m f w = match f a w1 with (r, w2, t2) => (r, w2, (t1 ++ t2)%list) end.
Proof. intros H. unfold bind. now rewrite H. Qed.

Lemma bind_raise {A B} (m : M E A) (f : A -> M E B) w e w1 t1 :
  m w = (Raise e, w1, t1) -> bind E m f w = (Raise e, w1, t1).
Proof. intros H. unfold bind. now rewrite H. Qed.

(** *** The transcript loop *)

(** One turn of the loop whose fetch raises: the warning, then the rest of
    the list with the mapping as it was. *)
Lemma for_each_url_raise url rest acc w e w1 :
  loader_load_data E [url] w = (Raise e, w1) ->
  for_each_url E (url :: rest) acc w =
    match for_each_url E rest acc w1 with
    | (r, w2, tr) =>
        (r, w2,
         EvLoadData [url] (Raise e)
         :: EvPrint ("âš ï¸ Failed to fetch transcript for " ++ url ++ ": " ++ exc_str e)
         :: tr)
    end.
Proof.
  intros H. simpl. unfold_run. rewrite H. simpl.
  destruct (for_each_url E rest acc w1) as [[r w2] tr]. reflexivity.
Qed.

(** One turn whose fetch answers: the texts of the documents, joined, are
    stored under the URL. *)
Lemma for_each_url_ok url rest acc w docs w1 :
  loader_load_data E [url] w = (Ok docs, w1) ->
  for_each_url E (url :: rest) acc w =
    match for_each_url E rest (dict_set acc url (join "" (map doc_text docs))) w1 with
    | (r, w2, tr) => (r, w2, EvLoadData [url] (Ok docs) :: tr)
    end.
Proof.
  intros H. simpl. unfold_run. rewrite H. simpl.
  destruct (for_each_url E rest _ w1) as [[r w2] tr]. reflexivity.
Qed.

Lemma for_each_url_spec urls : forall acc w,
  exists d w' tr,
    for_each_url E urls acc w = (Ok d, w', tr) /\
    always transcript_event tr /\
    (dict_wf acc -> dict_wf d) /\
    (forall l r, In (EvLoadData l r) tr -> exists url, l = [url] /\ In url urls) /\
    (forall k, In k (dict_keys d) <->
               In k (dict_keys acc) \/ exists docs, In (EvLoadData [k] (Ok docs)) tr).
Proof.
  induction urls as [|url rest IH]; intros acc w.
  - exists acc, w, []. simpl. unfold ret.
    split; [reflexivity|]. split; [reflexivity|]. split; [tauto|]. split.
    + intros l r [].
    + intros k. split; [tauto | intros [H | [docs []]]; exact H].
  - destruct (loader_load_data E [url] w) as [[docs | e] w1] eqn:Hload.
    + rewrite (for_each_url_ok _ _ _ _ _ _ Hload).
      destruct (IH (dict_set acc url (join "" (map doc_text docs))) w1)
        as (d & w' & tr & Hrun & Hkinds & Hwf & Hloads & Hkeys).
      rewrite Hrun. exists d, w', (EvLoadData [url] (Ok docs) :: tr).
      split; [reflexivity|]. split; [exact Hkinds|].
      split; [intros H; apply Hwf; now apply dict_set_wf|].
      split.
      * intros l r [Heq | Hin].
        -- inversion Heq; subst. exists url. split; [reflexivity | now left].
        -- destruct (Hloads l r Hin) as (u & -> & Hu). exists u. split; [reflexivity | now right].
      * intros k. rewrite Hkeys, dict_set_keys_in. split.
        -- intros [[H | ->] | [docs' H]].
           ++ now left.
           ++ right. exists docs. now left.
           ++ right. exists docs'. now right.
        -- intros [H | [docs' [Heq | Hin]]].
           ++ left. now left.
           ++ inversion Heq; subst. left. now right.
           ++ right. now exists docs'.
    + rewrite (for_each_url_raise _ _ _ _ _ _ Hload).
      destruct (IH acc w1) as (d & w' & tr & Hrun & Hkinds & Hwf & Hloads & Hkeys).
      rewrite Hrun. eexists d, w', _. split; [reflexivity|].
      split; [exact Hkinds|]. split; [exact Hwf|]. split.
      * intros l r [Heq | [Heq | Hin]]; try discriminate.
        -- inversion Heq; subst. exists url. split; [reflexivity | now left].
        -- destruct (Hloads l r Hin) as (u & -> & Hu). exists u. split; [reflexivity | now right].
      * intros k. rewrite Hkeys. split.
        -- intros [H | [docs' H]]; [now left | right; exists docs'; right; now right].
        -- intros [H | [docs' [Heq | [Heq | Hin]]]]; try discriminate;
             [now left | right; now exists docs'].
Qed.

(** [get_video_transcripts] returns, whatever the fetches do. *)
Lemma get_video_transcripts_spec urls w :
  exists d w' tr,
    get_video_transcripts E urls w = (Ok d, w', tr) /\
    always transcript_event tr /\
    dict_wf d /\
    (forall l r, In (EvLoadData l r) tr -> exists url, l = [url] /\ In url urls) /\
    (forall k, In k (dict_keys d) <-> exists docs, In (EvLoadData [k] (Ok docs)) tr).
Proof.
  destruct (for_each_url_spec urls [] w) as (d & w' & tr & Hrun & Hkinds & Hwf & Hloads & Hkeys).
  exists d, w', (EvEnter F_get_video_transcripts :: tr).
  unfold get_video_transcripts. unfold_run. rewrite Hrun.
  split; [reflexivity|]. split; [exact Hkinds|].
  split; [apply Hwf; constructor|]. split.
  - intros l r [Heq | Hin]; [discriminate | exact (Hloads l r Hin)].
  - intros k. rewrite Hkeys. simpl. split.
    + intros [[] | [docs H]]. exists docs. now right.
    + intros [docs [Heq | H]]; [discriminate|]. right. now exists docs.
Qed.

End Runs.

Section Steps.

Variable E : Externals.

(** *** The search step *)

(** The request raises: the handler prints and returns the empty list. *)
Lemma search_request_raises query max_results w w1 w2 e :
  youtube_build E (GOOGLE_API_KEY E) w = (Ok tt, w1) ->
  youtube_search_list_execute E query max_results w1 = (Raise e, w2) ->
  search_youtube_videos_api E query max_results w =
    (Ok [], w2,
     [EvEnter F_search_youtube_videos_api;
      EvBuild (GOOGLE_API_KEY E) (Ok tt);
      EvSearch query max_results (Raise e);
      EvPrint ("âŒ YouTube API request failed: " ++ exc_str e)]).
Proof.
  intros Hbuild Hsearch. unfold search_youtube_videos_api. unfold_run.
  rewrite Hbuild, Hsearch. reflexivity.
Qed.

Lemma search_trace_kinds query max_results w r w' tr :
  search_youtube_videos_api E query max_results w = (r, w', tr) ->
  always search_event tr.
Proof.
  unfold search_youtube_videos_api. unfold_run.
  destruct (youtube_build E (GOOGLE_API_KEY E) w) as [[[] | e] w1]; simpl.
  - destruct (youtube_search_list_execute E query max_results w1)
      as [[search_response | e] w2]; simpl.
    + destruct (bind_result (py_get search_response "items" (JList [])) _)
        as [items | e]; simpl.
      * destruct (mapM _ items); intros H; inversion H; reflexivity.
      * intros H; inversion H; reflexivity.
    + intros H; inversion H; reflexivity.
  - intros H; inversion H; reflexivity.
Qed.

(** *** The selector *)

Lemma select_best_recipe_empty w :
  select_best_recipe E [] w =
    (Ok None, w,
     [EvEnter F_select_best_recipe;
      EvPrint "âŒ No transcripts available for analysis."]).
Proof. reflexivity. Qed.

(** The comprehension of the selector builds the block of every entry. *)
Lemma blocks_of_entries (transcripts d : pydict) :
  (forall k v, In (k, v) d -> assoc k transcripts = Some v) ->
  mapM (fun url =>
          bind_result (dict_getitem transcripts url)
                      (fun transcript => Ok ("Video: " ++ url ++ LF ++ transcript)))
       (dict_keys d)
  = Ok (map labeled_block d).
Proof.
  induction d as [|[k v] d IH]; intros Hassoc.
  - reflexivity.
  - change (dict_keys ((k, v) :: d)) with (k :: dict_keys d).
    cbn [mapM]. unfold dict_getitem at 1.
    rewrite (Hassoc k v (or_introl eq_refl)). cbn [bind_result].
    rewrite IH by (intros k' v' Hin; apply Hassoc; now right).
    reflexivity.
Qed.

Lemma select_best_recipe_nonempty transcripts w :
  transcripts <> [] -> dict_wf transcripts ->
  select_best_recipe E transcripts w =
    match llm_complete E (prompt_of transcripts) w with
    | (r, w1) =>
        (recipe_of r, w1,
         [EvEnter F_select_best_recipe; EvComplete (prompt_of transcripts) r])
    end.
Proof.
  intros Hne Hwf. unfold select_best_recipe.
  destruct transcripts as [|entry rest] eqn:Hd; [congruence|].
  rewrite <- Hd in *. unfold_run.
  rewrite (blocks_of_entries transcripts transcripts)
    by (intros k v; now apply assoc_of_entry).
  fold (prompt_of transcripts). cbv beta iota zeta.
  destruct (llm_complete E (prompt_of transcripts) w) as [[[response|] | e] w1];
    reflexivity.
Qed.

Lemma select_trace_kinds transcripts w r w' tr :
  select_best_recipe E transcripts w = (r, w', tr) ->
  always select_event tr.
Proof.
  unfold select_best_recipe. destruct transcripts as [|entry rest].
  - intros H; inversion H; reflexivity.
  - unfold_run. cbv beta iota zeta.
    destruct (mapM _ (dict_keys (entry :: rest))) as [blocks | e].
    + destruct (llm_complete E _ w) as [[response | e] w1];
        intros H; inversion H; reflexivity.
    + intros H; inversion H; reflexivity.
Qed.

End Steps.

Section Publish.

Variable E : Externals.

(** [create_notion_page], one equation per path through it. *)
Lemma create_notion_page_run recipe_name recipe_content w :
  create_notion_page E recipe_name recipe_content w =
    match datetime_today E w with
    | (d, w1) =>
      match toolset_execute_action E NOTION_CREATE_NOTION_PAGE
              (create_page_params E (notion_title d recipe_name)) w1 with
      | (Raise e, w2) =>
          (Raise e, w2, create_page_events E d recipe_name (Raise e))
      | (Ok page_response, w2) =>
        match nested_page_id page_response with
        | Raise e =>
            (Raise e, w2, create_page_events E d recipe_name (Ok page_response))
        | Ok page_id =>
          if negb (truthy page_id) then
            (Ok tt, w2,
             create_page_events E d recipe_name (Ok page_response)
             ++ [EvPrint ("âŒ Failed to create Notion page. Response: " ++ py_str E page_response)])%list
          else
            match toolset_execute_action E NOTION_ADD_PAGE_CONTENT
                    (add_content_params page_id recipe_content) w2 with
            | (Raise e, w3) =>
                (Raise e, w3,
                 create_page_events E d recipe_name (Ok page_response)
                 ++ [EvExecuteAction NOTION_ADD_PAGE_CONTENT
                       (add_content_params page_id recipe_content) (Raise e)])%list
            | (Ok content_response, w3) =>
              match py_get content_response "successfull" JNone with
              | Raise e =>
                  (Raise e, w3,
                   create_page_events E d recipe_name (Ok page_response)
                   ++ [EvExecuteAction NOTION_ADD_PAGE_CONTENT
                         (add_content_params page_id recipe_content)
                         (Ok content_response)])%list
              | Ok successfull =>
                  (Ok tt, w3,
                   create_page_events E d recipe_name (Ok page_response)
                   ++ [EvExecuteAction NOTION_ADD_PAGE_CONTENT
                         (add_content_params page_id recipe_content)
                         (Ok content_response);
                       EvPrint
                         (if is_True successfull
                          then "âœ… Recipe '" ++ recipe_name ++ "' saved in Notion!"
                          else "âŒ Failed to add content. Response: " ++ py_str E content_response)])%list
              end
            end
        end
      end
    end.
Proof.
  unfold create_notion_page, create_page_events, notion_title. unfold_run.
  destruct (datetime_today E w) as [d w1]. cbv beta iota zeta.
  destruct (toolset_execute_action E NOTION_CREATE_NOTION_PAGE _ w1)
    as [[page_response | e] w2]; [|reflexivity].
  destruct (nested_page_id page_response) as [page_id | e]; [|reflexivity].
  destruct (truthy page_id); [|reflexivity].
  cbv beta iota zeta. cbn [negb].
  destruct (toolset_execute_action E NOTION_ADD_PAGE_CONTENT _ w2)
    as [[content_response | e] w3]; [|reflexivity].
  destruct (py_get content_response "successfull" JNone) as [successfull | e];
    [|reflexivity].
  destruct (is_True successfull); reflexivity.
Qed.

End Publish.

Section Driver.

Variable E : Externals.

(** [main], one equation per path through it. *)
Lemma main_run w :
  main E w =
    match sys_input E "Enter the dish you want to make: " w with
    | (Raise e, w1) =>
        (Raise e, w1, [EvEnter F_main; EvInput "Enter the dish you want to make: " (Raise e)])
    | (Ok recipe_name, w1) =>
      match search_youtube_videos_api E recipe_name 3 w1 with
      | (Raise e, w2, tr_search) =>
          (Raise e, w2, main_events recipe_name ++ tr_search)%list
      | (Ok [], w2, tr_search) =>
          (Ok tt, w2,
           main_events recipe_name ++ tr_search
           ++ [EvPrint "âŒ No videos found."])%list
      | (Ok (url :: urls), w2, tr_search) =>
        match get_video_transcripts E (url :: urls) w2 with
        | (Raise e, w3, tr_fetch) =>
            (Raise e, w3,
             main_events recipe_name ++ tr_search
             ++ EvPrint "ğŸ“œ Extracting transcripts..." :: tr_fetch)%list
        | (Ok transcripts, w3, tr_fetch) =>
          match select_best_recipe E transcripts w3 with
          | (Raise e, w4, tr_select) =>
              (Raise e, w4,
               main_events recipe_name ++ tr_search
               ++ EvPrint "ğŸ“œ Extracting transcripts..." :: tr_fetch
               ++ EvPrint "ğŸ½ï¸ Selecting the best recipe..." :: tr_select)%list
          | (Ok best_recipe, w4, tr_select) =>
            if negb (recipe_truthy best_recipe) then
              (Ok tt, w4,
               main_events recipe_name ++ tr_search
               ++ EvPrint "ğŸ“œ Extracting transcripts..." :: tr_fetch
               ++ EvPrint "ğŸ½ï¸ Selecting the best recipe..." :: tr_select
               ++ [EvPrint "âŒ No suitable recipe found."])%list
            else
              match create_notion_page E recipe_name
                      (recipe_string best_recipe) w4 with
              | (Raise e, w5, tr_publish) =>
                  (Raise e, w5,
                   main_events recipe_name ++ tr_search
                   ++ EvPrint "ğŸ“œ Extracting transcripts..." :: tr_fetch
                   ++ EvPrint "ğŸ½ï¸ Selecting the best recipe..." :: tr_select
                   ++ EvPrint "ğŸ“ Saving to Notion..." :: tr_publish)%list
              | (Ok _, w5, tr_publish) =>
                  (Ok tt, w5,
                   main_events recipe_name ++ tr_search
                   ++ EvPrint "ğŸ“œ Extracting transcripts..." :: tr_fetch
                   ++ EvPrint "ğŸ½ï¸ Selecting the best recipe..." :: tr_select
                   ++ EvPrint "ğŸ“ Saving to Notion..." :: tr_publish
                   ++ [EvPrint "âœ… Process completed!"])%list
              end
          end
        end
      end
    end.
Proof.
  unfold main, main_events. unfold_run.
  destruct (sys_input E _ w) as [[recipe_name | e] w1]; [|reflexivity].
  destruct (search_youtube_videos_api E recipe_name 3 w1)
    as [[[[|url urls] | e] w2] tr_search]; [reflexivity| |reflexivity].
  destruct (get_video_transcripts E (url :: urls) w2)
    as [[[transcripts | e] w3] tr_fetch]; [|reflexivity].
  destruct (select_best_recipe E transcripts w3)
    as [[[best_recipe | e] w4] tr_select]; [|reflexivity].
  destruct (recipe_truthy best_recipe); cbn [negb]; [|reflexivity].
  destruct (create_notion_page E recipe_name (recipe_string best_recipe) w4)
    as [[[[] | e] w5] tr_publish]; reflexivity.
Qed.

End Driver.

(** ** The claims about the pipeline *)

Ltac by_kind :=
  let ev := fresh "ev" in
  intros ev; destruct ev as [[]| | | | | | | |]; simpl; intros;
  (reflexivity || discriminate).

Lemma join_occurs sep (parts : list string) p :
  In p parts -> occurs_in p (join sep parts).
Proof.
  induction parts as [|q parts IH]; intros Hin; [contradiction|].
  destruct Hin as [-> | Hin].
  - destruct parts as [|q' parts].
    + exists "", "". simpl. now rewrite append_nil_r.
    + exists "", (sep ++ join sep (q' :: parts)). reflexivity.
  - destruct parts as [|q' parts]; [contradiction|].
    destruct (IH Hin) as (a & b & Hab).
    exists (q ++ sep ++ a), b.
    change (join sep (q :: q' :: parts)) with (q ++ sep ++ join sep (q' :: parts)).
    rewrite Hab. now rewrite !append_assoc.
Qed.

Lemma occurs_in_trans x y z : occurs_in x y -> occurs_in y z -> occurs_in x z.
Proof.
  intros (a & b & ->) (c & d & ->). exists (c ++ a), (b ++ d).
  now rewrite !append_assoc.
Qed.

(** C1: for a non-empty mapping the selector makes one completion call, and
    its prompt is the fixed instruction followed by one labeled block per
    entry of the mapping, in the order of the mapping; every URL of the
    mapping labels exactly one block, and every URL and every transcript
    of the mapping occurs in the prompt. *)
Theorem select_best_recipe_prompt (E : Externals) (transcripts : pydict) (w : World E) :
  transcripts <> [] ->
  dict_wf transcripts ->
  (exists r w1,
     llm_complete E (prompt_of transcripts) w = (r, w1) /\
     select_best_recipe E transcripts w =
       (recipe_of r, w1,
        [EvEnter F_select_best_recipe; EvComplete (prompt_of transcripts) r])) /\
  prompt_of transcripts =
    system_instruction ++ LF ++ LF
    ++ join (LF ++ LF)
         (map (fun entry => "Video: " ++ fst entry ++ LF ++ snd entry) transcripts) /\
  (forall url, In url (dict_keys transcripts) ->
               length (entries_for url transcripts) = 1) /\
  (forall url transcript,
      In (url, transcript) transcripts ->
      occurs_in url (prompt_of transcripts) /\
      occurs_in transcript (prompt_of transcripts)).
Proof.
  intros Hne Hwf. split; [|split; [|split]].
  - destruct (llm_complete E (prompt_of transcripts) w) as [r w1] eqn:Hllm.
    exists r, w1. split; [reflexivity|].
    rewrite (select_best_recipe_nonempty E transcripts w Hne Hwf), Hllm.
    reflexivity.
  - reflexivity.
  - intros url Hin. now apply entries_for_key.
  - intros url transcript Hin.
    assert (Hblock : occurs_in (labeled_block (url, transcript)) (prompt_of transcripts)).
    { apply occurs_in_trans with (join (LF ++ LF) (map labeled_block transcripts)).
      - apply join_occurs. now apply (in_map labeled_block).
      - exists (system_instruction ++ LF ++ LF), "". unfold prompt_of.
        now rewrite append_nil_r, !append_assoc. }
    split.
    + apply occurs_in_trans with (labeled_block (url, transcript)); [|exact Hblock].
      exists "Video: ", (LF ++ transcript). reflexivity.
    + apply occurs_in_trans with (labeled_block (url, transcript)); [|exact Hblock].
      exists ("Video: " ++ url ++ LF), "". unfold labeled_block. simpl fst. simpl snd.
      now rewrite append_nil_r, !append_assoc.
Qed.

Lemma select_best_recipe_prompt_witness :
  select_best_recipe (scripted happy) [("u1", "stir"); ("u2", "bake")] 0 =
    (Ok (Some "Boil water."), 1,
     [EvEnter F_select_best_recipe;
      EvComplete (prompt_of [("u1", "stir"); ("u2", "bake")])
                 (Ok (Some {| response_text := "Boil water." |}))]).
Proof.
  destruct (select_best_recipe_prompt (scripted happy)
              [("u1", "stir"); ("u2", "bake")] 0) as [(r & w1 & Hllm & Hrun) _].
  - discriminate.
  - repeat constructor; simpl; intuition discriminate.
  - rewrite Hrun. simpl in Hllm. inversion Hllm; subst. reflexivity.
Defined.

(** C2: when the search step returns the empty list, [main] prints the
    not-found message and returns; the transcript, selection and publish
    steps are not entered and none of their services is called. *)
Theorem main_stops_without_videos (E : Externals) (w w1 w2 : World E)
        (recipe_name : string) (tr_search : list Event) :
  sys_input E "Enter the dish you want to make: " w = (Ok recipe_name, w1) ->
  search_youtube_videos_api E recipe_name 3 w1 = (Ok [], w2, tr_search) ->
  exists tr,
    main E w = (Ok tt, w2, tr) /\
    tr = (main_events recipe_name ++ tr_search
          ++ [EvPrint "âŒ No videos found."])%list /\
    never (entered F_get_video_transcripts) tr /\
    never (entered F_select_best_recipe) tr /\
    never (entered F_create_notion_page) tr /\
    never is_load_data tr /\
    never is_complete tr /\
    never is_execute_action tr.
Proof.
  intros Hinput Hsearch. eexists. split; [|split; [reflexivity|]].
  - rewrite main_run, Hinput, Hsearch. reflexivity.
  - pose proof (search_trace_kinds _ _ _ _ _ _ _ Hsearch) as Hkinds.
    repeat split; apply never_app; (split; [reflexivity|]);
      apply never_app; (split; [|reflexivity]);
      (eapply always_never; [|exact Hkinds]); by_kind.
Qed.

Lemma main_stops_without_videos_witness :
  exists tr,
    main (scripted nothing_found) 0 = (Ok tt, 3, tr) /\
    never is_load_data tr /\ never is_complete tr /\ never is_execute_action tr.
Proof.
  destruct (main_stops_without_videos (scripted nothing_found) 0 1 3
              "garlic butter shrimp"
              [EvEnter F_search_youtube_videos_api;
               EvBuild (Some "g-key") (Ok tt);
               EvSearch "garlic butter shrimp" 3 (Ok (JDict []))])
    as (tr & Hrun & _ & _ & _ & _ & Hl & Hc & Hx).
  - reflexivity.
  - reflexivity.
  - exists tr. auto.
Defined.

Lemma no_keys_empty (d : pydict) :
  (forall k, ~ In k (dict_keys d)) -> d = [].
Proof.
  destruct d as [|[k v] d]; [reflexivity|].
  intros H. exfalso. apply (H k). now left.
Qed.

(** C3: when every transcript fetch of the run raises, the mapping is
    empty, [select_best_recipe] returns [None] after its message and
    without a completion call, and [main] prints the no-recipe message and
    returns without entering the publish step. *)
Theorem main_stops_without_transcripts (E : Externals) (w w1 w2 w3 : World E)
        (recipe_name url : string) (urls : list string)
        (tr_search tr_fetch : list Event) (fetched : result pydict) :
  sys_input E "Enter the dish you want to make: " w = (Ok recipe_name, w1) ->
  search_youtube_videos_api E recipe_name 3 w1 = (Ok (url :: urls), w2, tr_search) ->
  get_video_transcripts E (url :: urls) w2 = (fetched, w3, tr_fetch) ->
  (forall links r, In (EvLoadData links r) tr_fetch -> is_raise r = true) ->
  fetched = Ok [] /\
  select_best_recipe E [] w3 =
    (Ok None, w3,
     [EvEnter F_select_best_recipe;
      EvPrint "âŒ No transcripts available for analysis."]) /\
  exists tr,
    main E w = (Ok tt, w3, tr) /\
    tr = (main_events recipe_name ++ tr_search
          ++ EvPrint "ğŸ“œ Extracting transcripts..." :: tr_fetch
          ++ [EvPrint "ğŸ½ï¸ Selecting the best recipe...";
              EvEnter F_select_best_recipe;
              EvPrint "âŒ No transcripts available for analysis.";
              EvPrint "âŒ No suitable recipe found."])%list /\
    never is_complete tr /\
    never (entered F_create_notion_page) tr /\
    never is_execute_action tr.
Proof.
  intros Hinput Hsearch Hfetch Hfail.
  destruct (get_video_transcripts_spec E (url :: urls) w2)
    as (d & w' & tr' & Hrun & Hkinds & _ & _ & Hkeys).
  rewrite Hfetch in Hrun. inversion Hrun; subst fetched w' tr'. clear Hrun.
  assert (d = []) as ->.
  { apply no_keys_empty. intros k Hk. apply Hkeys in Hk. destruct Hk as [docs Hin].
    specialize (Hfail _ _ Hin). discriminate. }
  split; [reflexivity|]. split; [reflexivity|].
  eexists. split; [|split; [reflexivity|]].
  - rewrite main_run, Hinput, Hsearch, Hfetch. reflexivity.
  - pose proof (search_trace_kinds _ _ _ _ _ _ _ Hsearch) as Hs.
    repeat split; apply never_app; (split; [reflexivity|]);
      apply never_app; (split; [eapply always_never; [|exact Hs]; by_kind|]);
      apply (never_app _ [_]); (split; [reflexivity|]);
      apply never_app; (split; [|reflexivity]);
      (eapply always_never; [|exact Hkinds]); by_kind.
Qed.

Lemma main_stops_without_transcripts_witness :
  exists tr,
    main (scripted no_transcripts) 0 = (Ok tt, 5, tr) /\
    never is_complete tr /\ never is_execute_action tr.
Proof.
  destruct (main_stops_without_transcripts (scripted no_transcripts) 0 1 3 5
              "garlic butter shrimp" "https://www.youtube.com/watch?v=aaa"
              ["https://www.youtube.com/watch?v=bbb"]
              [EvEnter F_search_youtube_videos_api;
               EvBuild (Some "g-key") (Ok tt);
               EvSearch "garlic butter shrimp" 3 (on_search happy)]
              [EvEnter F_get_video_transcripts;
               EvLoadData ["https://www.youtube.com/watch?v=aaa"] (Raise boom);
               EvPrint ("âš ï¸ Failed to fetch transcript for " ++ "https://www.youtube.com/watch?v=aaa"
                        ++ ": " ++ exc_str boom);
               EvLoadData ["https://www.youtube.com/watch?v=bbb"] (Raise boom);
               EvPrint ("âš ï¸ Failed to fetch transcript for " ++ "https://www.youtube.com/watch?v=bbb"
                        ++ ": " ++ exc_str boom)]
              (Ok []))
    as (_ & _ & tr & Hrun & _ & Hc & _ & Hx).
  - reflexivity.
  - reflexivity.
  - reflexivity.
  - intros links r Hin. simpl in Hin.
    repeat (destruct Hin as [Heq | Hin]; [inversion Heq; reflexivity|]).
    contradiction.
  - exists tr. auto.
Defined.

(** C9: the no-recipe exit of [main] tests falsiness.  When the selector
    returns the empty string, [main] prints the no-recipe message and
    returns without entering the publish step, with the run it has when
    the selector returns [None]. *)
Theorem main_stops_on_empty_recipe (E : Externals) (w w1 w2 w3 w4 : World E)
        (recipe_name url : string) (urls : list string) (transcripts : pydict)
        (tr_search tr_fetch tr_select : list Event)
        (best_recipe : option string) :
  best_recipe = Some "" \/ best_recipe = None ->
  sys_input E "Enter the dish you want to make: " w = (Ok recipe_name, w1) ->
  search_youtube_videos_api E recipe_name 3 w1 = (Ok (url :: urls), w2, tr_search) ->
  get_video_transcripts E (url :: urls) w2 = (Ok transcripts, w3, tr_fetch) ->
  select_best_recipe E transcripts w3 = (Ok best_recipe, w4, tr_select) ->
  exists tr,
    main E w = (Ok tt, w4, tr) /\
    tr = (main_events recipe_name ++ tr_search
          ++ EvPrint "ğŸ“œ Extracting transcripts..." :: tr_fetch
          ++ EvPrint "ğŸ½ï¸ Selecting the best recipe..." :: tr_select
          ++ [EvPrint "âŒ No suitable recipe found."])%list /\
    never (entered F_create_notion_page) tr /\
    never is_execute_action tr.
Proof.
  intros Hfalsy Hinput Hsearch Hfetch Hselect.
  eexists. split; [|split; [reflexivity|]].
  - rewrite main_run, Hinput, Hsearch, Hfetch, Hselect.
    destruct Hfalsy as [-> | ->]; reflexivity.
  - pose proof (search_trace_kinds _ _ _ _ _ _ _ Hsearch) as Hs.
    pose proof (select_trace_kinds _ _ _ _ _ _ Hselect) as Hr.
    destruct (get_video_transcripts_spec E (url :: urls) w2)
      as (d & w' & tr' & Hrun & Hf & _).
    rewrite Hfetch in Hrun. inversion Hrun; subst d w' tr'. clear Hrun.
    repeat split; apply never_app; (split; [reflexivity|]);
      apply never_app; (split; [eapply always_never; [|exact Hs]; by_kind|]);
      apply (never_app _ [_]); (split; [reflexivity|]);
      apply never_app; (split; [eapply always_never; [|exact Hf]; by_kind|]);
      apply (never_app _ [_]); (split; [reflexivity|]);
      apply never_app; (split; [|reflexivity]);
      (eapply always_never; [|exact Hr]; by_kind).
Qed.

Lemma main_stops_on_empty_recipe_witness :
  exists tr,
    main (scripted llm_silent) 0 = (Ok tt, 6, tr) /\
    never (entered F_create_notion_page) tr /\ never is_execute_action tr.
Proof.
  destruct (main_stops_on_empty_recipe (scripted llm_silent) 0 1 3 5 6
              "garlic butter shrimp" "https://www.youtube.com/watch?v=aaa"
              ["https://www.youtube.com/watch?v=bbb"]
              [("https://www.youtube.com/watch?v=aaa", "boil water");
               ("https://www.youtube.com/watch?v=bbb", "boil water")]
              [EvEnter F_search_youtube_videos_api;
               EvBuild (Some "g-key") (Ok tt);
               EvSearch "garlic butter shrimp" 3 (on_search happy)]
              [EvEnter F_get_video_transcripts;
               EvLoadData ["https://www.youtube.com/watch?v=aaa"]
                          (Ok [ {| doc_text := "boil " |}; {| doc_text := "water" |} ]);
               EvLoadData ["https://www.youtube.com/watch?v=bbb"]
                          (Ok [ {| doc_text := "boil " |}; {| doc_text := "water" |} ])]
              [EvEnter F_select_best_recipe;
               EvComplete
                 (prompt_of [("https://www.youtube.com/watch?v=aaa", "boil water");
                             ("https://www.youtube.com/watch?v=bbb", "boil water")])
                 (Ok (Some {| response_text := "" |}))]
              (Some ""))
    as (tr & Hrun & _ & Hp & Hx).
  - now left.
  - reflexivity.
  - reflexivity.
  - reflexivity.
  - reflexivity.
  - exists tr. auto.
Defined.

(** C7: when the search request raises, [search_youtube_videos_api] prints
    the error and returns the empty list; nothing is raised. *)
Theorem search_failure_gives_empty_list (E : Externals) (query : string)
        (max_results : Z) (w w1 w2 : World E) (e : exn) :
  youtube_build E (GOOGLE_API_KEY E) w = (Ok tt, w1) ->
  youtube_search_list_execute E query max_results w1 = (Raise e, w2) ->
  search_youtube_videos_api E query max_results w =
    (Ok [], w2,
     [EvEnter F_search_youtube_videos_api;
      EvBuild (GOOGLE_API_KEY E) (Ok tt);
      EvSearch query max_results (Raise e);
      EvPrint ("âŒ YouTube API request failed: " ++ exc_str e)]).
Proof. exact (search_request_raises E query max_results w w1 w2 e). Qed.

Lemma search_failure_gives_empty_list_witness :
  search_youtube_videos_api (scripted search_down) "ramen" 3 0 =
    (Ok [], 2,
     [EvEnter F_search_youtube_videos_api;
      EvBuild (Some "g-key") (Ok tt);
      EvSearch "ramen" 3 (Raise boom);
      EvPrint "âŒ YouTube API request failed: service unavailable"]).
Proof.
  apply (search_failure_gives_empty_list (scripted search_down) "ramen" 3 0 1 2 boom);
    reflexivity.
Defined.

(** C8: [get_video_transcripts] returns a mapping whose keys all come from
    the input list; a URL is a key exactly when a fetch of it answered, so
    a URL whose fetches raised is absent. *)
Theorem transcript_keys_come_from_input (E : Externals) (video_urls : list string)
        (w : World E) :
  exists transcripts w' tr,
    get_video_transcripts E video_urls w = (Ok transcripts, w', tr) /\
    incl (dict_keys transcripts) video_urls /\
    dict_wf transcripts /\
    (forall url, In url (dict_keys transcripts) <->
                 exists docs, In (EvLoadData [url] (Ok docs)) tr) /\
    (forall url, (forall r, In (EvLoadData [url] r) tr -> is_raise r = true) ->
                 ~ In url (dict_keys transcripts)).
Proof.
  destruct (get_video_transcripts_spec E video_urls w)
    as (d & w' & tr & Hrun & _ & Hwf & Hloads & Hkeys).
  exists d, w', tr. split; [exact Hrun|]. split; [|split; [exact Hwf|split]].
  - intros k Hk. apply Hkeys in Hk. destruct Hk as [docs Hin].
    destruct (Hloads _ _ Hin) as (u & Heq & Hu). inversion Heq; subst. exact Hu.
  - exact Hkeys.
  - intros url Hfail Hk. apply Hkeys in Hk. destruct Hk as [docs Hin].
    specialize (Hfail _ Hin). discriminate.
Qed.

(** ** The publish step *)

Lemma lacks_page_id_falsy (page_response : json) :
  lacks_page_id page_response = true ->
  exists page_id,
    nested_page_id page_response = Ok page_id /\ truthy page_id = false.
Proof.
  unfold lacks_page_id, nested_page_id, absent_or.
  destruct page_response as [| | | | | |d]; try discriminate.
  cbn [py_get bind_result].
  destruct (assoc "data" d) as [[| | | | | |d1]|]; try discriminate.
  - cbn [py_get bind_result].
    destruct (assoc "data" d1) as [[| | | | | |d2]|]; try discriminate.
    + cbn [py_get bind_result]. destruct (assoc "id" d2) as [v|].
      * intros H. exists v. split; [reflexivity|]. now apply negb_true_iff.
      * intros _. exists JNone. split; reflexivity.
    + intros _. exists JNone. split; reflexivity.
  - intros _. exists JNone. split; reflexivity.
Qed.

(** Where the guard of [create_notion_page] works: a "create page"
    response in which [data] and [data.data] are each missing or a dict,
    and [id] is missing or falsy, makes the function print the failure and
    return; and whenever no identifier comes out of the response, "append
    content" is not called. *)
Theorem create_page_without_id (E : Externals) (recipe_name recipe_content : string)
        (w w1 w2 : World E) (d : datetime) (page_response : json) :
  datetime_today E w = (d, w1) ->
  toolset_execute_action E NOTION_CREATE_NOTION_PAGE
    (create_page_params E (notion_title d recipe_name)) w1 = (Ok page_response, w2) ->
  (lacks_page_id page_response = true ->
   create_notion_page E recipe_name recipe_content w =
     (Ok tt, w2,
      create_page_events E d recipe_name (Ok page_response)
      ++ [EvPrint ("âŒ Failed to create Notion page. Response: "
                   ++ py_str E page_response)])%list) /\
  (no_page_id page_response = true ->
   exists r tr,
     create_notion_page E recipe_name recipe_content w = (r, w2, tr) /\
     never is_append_content tr).
Proof.
  intros Htoday Hcreate. split.
  - intros Hlacks. destruct (lacks_page_id_falsy _ Hlacks) as (page_id & Hid & Hfalsy).
    rewrite create_notion_page_run, Htoday, Hcreate, Hid, Hfalsy. reflexivity.
  - unfold no_page_id. intros Hno.
    rewrite create_notion_page_run, Htoday, Hcreate.
    destruct (nested_page_id page_response) as [page_id | e].
    + rewrite Hno. eexists _, _. split; reflexivity.
    + eexists _, _. split; reflexivity.
Qed.

Lemma create_page_without_id_witness :
  create_notion_page (scripted page_without_id) "ramen" "Boil." 0 =
    (Ok tt, 1,
     [EvEnter F_create_notion_page;
      EvToday {| year := 2024; month := 6; day := 1 |};
      EvExecuteAction NOTION_CREATE_NOTION_PAGE
        (JDict [("parent_id", JStr "parent");
                ("title", JStr "Dinner on 2024-06-01: ramen")])
        (on_create page_without_id);
      EvPrint "âŒ Failed to create Notion page. Response: {...}"]).
Proof.
  apply (create_page_without_id (scripted page_without_id) "ramen" "Boil." 0 0 1
           {| year := 2024; month := 6; day := 1 |}
           (JDict [("data", JDict [("data", JDict [])]); ("successfull", JBool false)]));
    reflexivity.
Defined.

(** C4: the code misses a case of the claim.  For the response
    [{"data": None}] no identifier can be extracted, and the function
    should print the failure and return; the default of [.get] stands in
    for a missing key only, so [None.get] raises [AttributeError] before
    the guard: nothing is printed and the function does not return. *)
Lemma create_page_null_data_raises :
  exists page_response tr,
    toolset_execute_action (scripted page_data_null) NOTION_CREATE_NOTION_PAGE
      (create_page_params (scripted page_data_null) "Dinner on 2024-06-01: ramen") 0
      = (Ok page_response, 1) /\
    page_response = JDict [("data", JNone); ("successfull", JBool false)] /\
    no_page_id page_response = true /\
    create_notion_page (scripted page_data_null) "ramen" "Boil." 0 =
      (Raise (PyExc "AttributeError" "'NoneType' object has no attribute 'get'"), 1, tr) /\
    never is_print tr.
Proof.
  eexists _, _. repeat split.
Qed.

(** ** Failures of the services *)

(** The call sites, one by one.  A raise of the search request and a raise
    of a transcript fetch are caught where they happen, printed, and
    turned into the empty list and a missing entry.  The completion call
    and the two notes-service calls are not inside a [try]: what they
    raise leaves [select_best_recipe] and [create_notion_page], and [main]
    with them. *)
Theorem external_failures (E : Externals) :
  (forall query max_results (w w1 w2 : World E) e,
      youtube_build E (GOOGLE_API_KEY E) w = (Ok tt, w1) ->
      youtube_search_list_execute E query max_results w1 = (Raise e, w2) ->
      search_youtube_videos_api E query max_results w =
        (Ok [], w2,
         [EvEnter F_search_youtube_videos_api;
          EvBuild (GOOGLE_API_KEY E) (Ok tt);
          EvSearch query max_results (Raise e);
          EvPrint ("âŒ YouTube API request failed: " ++ exc_str e)])) /\
  (forall url rest transcripts (w w1 : World E) e,
      loader_load_data E [url] w = (Raise e, w1) ->
      for_each_url E (url :: rest) transcripts w =
        match for_each_url E rest transcripts w1 with
        | (r, w2, tr) =>
            (r, w2,
             EvLoadData [url] (Raise e)
             :: EvPrint ("âš ï¸ Failed to fetch transcript for " ++ url ++ ": " ++ exc_str e)
             :: tr)
        end) /\
  (forall video_urls (w : World E),
      exists transcripts w' tr,
        get_video_transcripts E video_urls w = (Ok transcripts, w', tr)) /\
  (forall transcripts (w w1 : World E) e,
      transcripts <> [] -> dict_wf transcripts ->
      llm_complete E (prompt_of transcripts) w = (Raise e, w1) ->
      select_best_recipe E transcripts w =
        (Raise e, w1,
         [EvEnter F_select_best_recipe;
          EvComplete (prompt_of transcripts) (Raise e)])) /\
  (forall recipe_name recipe_content (w w1 w2 : World E) d e,
      datetime_today E w = (d, w1) ->
      toolset_execute_action E NOTION_CREATE_NOTION_PAGE
        (create_page_params E (notion_title d recipe_name)) w1 = (Raise e, w2) ->
      create_notion_page E recipe_name recipe_content w =
        (Raise e, w2, create_page_events E d recipe_name (Raise e))) /\
  (forall recipe_name recipe_content (w w1 w2 w3 : World E) d page_response page_id e,
      datetime_today E w = (d, w1) ->
      toolset_execute_action E NOTION_CREATE_NOTION_PAGE
        (create_page_params E (notion_title d recipe_name)) w1 = (Ok page_response, w2) ->
      nested_page_id page_response = Ok page_id ->
      truthy page_id = true ->
      toolset_execute_action E NOTION_ADD_PAGE_CONTENT
        (add_content_params page_id recipe_content) w2 = (Raise e, w3) ->
      create_notion_page E recipe_name recipe_content w =
        (Raise e, w3,
         create_page_events E d recipe_name (Ok page_response)
         ++ [EvExecuteAction NOTION_ADD_PAGE_CONTENT
               (add_content_params page_id recipe_content) (Raise e)])%list) /\
  (forall (w w1 w2 w3 w4 : World E) recipe_name url urls transcripts
          tr_search tr_fetch tr_select e,
      sys_input E "Enter the dish you want to make: " w = (Ok recipe_name, w1) ->
      search_youtube_videos_api E recipe_name 3 w1 = (Ok (url :: urls), w2, tr_search) ->
      get_video_transcripts E (url :: urls) w2 = (Ok transcripts, w3, tr_fetch) ->
      select_best_recipe E transcripts w3 = (Raise e, w4, tr_select) ->
      main E w =
        (Raise e, w4,
         main_events recipe_name ++ tr_search
         ++ EvPrint "ğŸ“œ Extracting transcripts..." :: tr_fetch
         ++ EvPrint "ğŸ½ï¸ Selecting the best recipe..." :: tr_select)%list) /\
  (forall (w w1 w2 w3 w4 w5 : World E) recipe_name url urls transcripts
          tr_search tr_fetch tr_select tr_publish best_recipe e,
      sys_input E "Enter the dish you want to make: " w = (Ok recipe_name, w1) ->
      search_youtube_videos_api E recipe_name 3 w1 = (Ok (url :: urls), w2, tr_search) ->
      get_video_transcripts E (url :: urls) w2 = (Ok transcripts, w3, tr_fetch) ->
      select_best_recipe E transcripts w3 = (Ok best_recipe, w4, tr_select) ->
      recipe_truthy best_recipe = true ->
      create_notion_page E recipe_name (recipe_string best_recipe) w4
        = (Raise e, w5, tr_publish) ->
      main E w =
        (Raise e, w5,
         main_events recipe_name ++ tr_search
         ++ EvPrint "ğŸ“œ Extracting transcripts..." :: tr_fetch
         ++ EvPrint "ğŸ½ï¸ Selecting the best recipe..." :: tr_select
         ++ EvPrint "ğŸ“ Saving to Notion..." :: tr_publish)%list).
Proof.
  split; [exact (search_request_raises E)|].
  split; [intros url rest transcripts w w1 e; apply for_each_url_raise|].
  split.
  { intros video_urls w.
    destruct (get_video_transcripts_spec E video_urls w) as (d & w' & tr & Hrun & _).
    now exists d, w', tr. }
  split.
  { intros transcripts w w1 e Hne Hwf Hllm.
    rewrite (select_best_recipe_nonempty E transcripts w Hne Hwf), Hllm. reflexivity. }
  split.
  { intros recipe_name recipe_content w w1 w2 d e Htoday Hcreate.
    rewrite create_notion_page_run, Htoday, Hcreate. reflexivity. }
  split.
  { intros recipe_name recipe_content w w1 w2 w3 d page_response page_id e
           Htoday Hcreate Hid Htruthy Happend.
    rewrite create_notion_page_run, Htoday, Hcreate, Hid, Htruthy. cbn [negb].
    rewrite Happend. reflexivity. }
  split.
  { intros w w1 w2 w3 w4 recipe_name url urls transcripts tr_search tr_fetch
           tr_select e Hinput Hsearch Hfetch Hselect.
    rewrite main_run, Hinput, Hsearch, Hfetch, Hselect. reflexivity. }
  intros w w1 w2 w3 w4 w5 recipe_name url urls transcripts tr_search tr_fetch
         tr_select tr_publish best_recipe e Hinput Hsearch Hfetch Hselect Htruthy
         Hpublish.
  rewrite main_run, Hinput, Hsearch, Hfetch, Hselect, Htruthy. cbn [negb].
  rewrite Hpublish. reflexivity.
Qed.

Lemma external_failures_witness :
  search_youtube_videos_api (scripted search_down) "ramen" 3 0 =
    (Ok [], 2,
     [EvEnter F_search_youtube_videos_api;
      EvBuild (Some "g-key") (Ok tt);
      EvSearch "ramen" 3 (Raise boom);
      EvPrint "âŒ YouTube API request failed: service unavailable"]) /\
  select_best_recipe (scripted llm_down) [("u1", "stir")] 0 =
    (Raise boom, 1,
     [EvEnter F_select_best_recipe;
      EvComplete (prompt_of [("u1", "stir")]) (Raise boom)]) /\
  create_notion_page (scripted notion_down) "ramen" "Boil." 0 =
    (Raise boom, 1,
     create_page_events (scripted notion_down)
       {| year := 2024; month := 6; day := 1 |} "ramen" (Raise boom)).
Proof.
  split; [|split].
  - apply (proj1 (external_failures (scripted search_down)) "ramen" 3%Z 0 1 2 boom);
      reflexivity.
  - apply (proj1 (proj2 (proj2 (proj2 (external_failures (scripted llm_down)))))
             [("u1", "stir")] 0 1 boom).
    + discriminate.
    + repeat constructor. simpl. intuition.
    + reflexivity.
  - apply (proj1 (proj2 (proj2 (proj2 (proj2 (external_failures (scripted notion_down))))))
             "ramen" "Boil." 0 0 1 {| year := 2024; month := 6; day := 1 |} boom);
      reflexivity.
Defined.

(** C6: the code misses call sites of the claim.  The completion call
    raises; unlike the search request and the transcript fetches it is
    not inside a [try], so nothing catches or prints the failure and the
    exception ends [main]. *)
Lemma llm_failure_ends_main :
  exists prompt w' tr,
    main (scripted llm_down) 0 = (Raise boom, w', tr) /\
    In (EvComplete prompt (Raise boom)) tr /\
    select_best_recipe (scripted llm_down) [("u1", "stir")] 0 =
      (Raise boom, 1,
       [EvEnter F_select_best_recipe;
        EvComplete (prompt_of [("u1", "stir")]) (Raise boom)]).
Proof.
  eexists _, _, _. split; [reflexivity|]. split.
  - simpl. do 12 right. left. reflexivity.
  - reflexivity.
Qed.

(** ** The title of the page *)

Lemma below_in_seq (bound n : N) :
  (n < bound)%N -> In (N.to_nat n) (seq 0 (N.to_nat bound)).
Proof. intros H. apply in_seq. lia. Qed.

(** From 1000 on the decimal form of a year has its four digits. *)
Lemma decimal_4 (n : N) : (1000 <= n < 10000)%N -> decimal n = four_digits n.
Proof.
  intros [Hlo Hhi].
  assert (Hall : forallb (fun k => (N.of_nat k <? 1000)%N
                                   || String.eqb (decimal (N.of_nat k))
                                                 (four_digits (N.of_nat k)))
                         (seq 0 (N.to_nat 10000)) = true) by (vm_compute; reflexivity).
  rewrite forallb_forall in Hall.
  specialize (Hall (N.to_nat n) (below_in_seq 10000 n Hhi)).
  rewrite N2Nat.id in Hall. apply orb_true_iff in Hall.
  destruct Hall as [Hsmall | Heq]; [apply N.ltb_lt in Hsmall; lia|].
  now apply String.eqb_eq.
Qed.

Lemma zero_padded_2 (n : N) : (n < 100)%N -> zero_padded 2 n = two_digits n.
Proof.
  intros Hn.
  assert (Hall : forallb (fun k => String.eqb (zero_padded 2 (N.of_nat k))
                                              (two_digits (N.of_nat k)))
                         (seq 0 (N.to_nat 100)) = true) by (vm_compute; reflexivity).
  rewrite forallb_forall in Hall.
  specialize (Hall (N.to_nat n) (below_in_seq 100 n Hn)).
  rewrite N2Nat.id in Hall. now apply String.eqb_eq.
Qed.

(** From the year 1000 on, the format of the script gives the ISO date. *)
Lemma strftime_iso (d : datetime) :
  valid_date d -> (1000 <= year d)%N -> strftime "%Y-%m-%d" d = iso_date d.
Proof.
  intros (Hy & Hm & Hd) Hyear. cbn [strftime].
  rewrite decimal_4, !zero_padded_2 by lia. reflexivity.
Qed.

(** Before the year 1000 it does not: the year is not padded. *)
Example strftime_short_year :
  strftime "%Y-%m-%d" {| year := 999; month := 6; day := 1 |} = "999-06-01".
Proof. reflexivity. Qed.

(** C5: the one "create page" call of [create_notion_page] carries the
    title ["Dinner on " ++ date ++ ": " ++ dish], where [date] is the ISO
    form, ten characters long, of the date the clock gives when the
    function runs; the clock is read once, before the call.  The date is
    the current one, so its year has four digits: from the year 1000 on
    the format of the script and the ISO form agree. *)
Theorem notion_page_title (E : Externals) (recipe_name recipe_content : string)
        (w w1 : World E) (d : datetime) :
  datetime_today E w = (d, w1) ->
  valid_date d ->
  (1000 <= year d)%N ->
  exists r r' w' tr',
    create_notion_page E recipe_name recipe_content w =
      (r', w',
       [EvEnter F_create_notion_page;
        EvToday d;
        EvExecuteAction NOTION_CREATE_NOTION_PAGE
          (JDict [("parent_id", of_optional (NOTION_PARENT_ID E));
                  ("title", JStr ("Dinner on " ++ iso_date d ++ ": " ++ recipe_name))])
          r] ++ tr')%list /\
    never is_create_page tr' /\
    never is_today tr' /\
    String.length (iso_date d) = 10.
Proof.
  intros Htoday Hvalid Hyear.
  rewrite create_notion_page_run, Htoday.
  unfold create_page_events, notion_title, create_page_params.
  rewrite (strftime_iso d Hvalid Hyear).
  destruct (toolset_execute_action E NOTION_CREATE_NOTION_PAGE _ w1)
    as [[page_response | e] w2].
  - destruct (nested_page_id page_response) as [page_id | e].
    + destruct (truthy page_id); cbn [negb].
      * destruct (toolset_execute_action E NOTION_ADD_PAGE_CONTENT _ w2)
          as [[content_response | e] w3].
        -- destruct (py_get content_response "successfull" JNone) as [flag | e];
             eexists _, _, _, _; (split; [reflexivity|]); repeat split.
        -- eexists _, _, _, _; (split; [reflexivity|]); repeat split.
      * eexists _, _, _, _; (split; [reflexivity|]); repeat split.
    + eexists _, _, _, [ ]; (split; [reflexivity|]); repeat split.
  - eexists _, _, _, [ ]; (split; [reflexivity|]); repeat split.
Qed.

Lemma notion_page_title_witness :
  exists r r' w' tr',
    create_notion_page (scripted happy) "garlic butter shrimp" "Boil water." 0 =
      (r', w',
       [EvEnter F_create_notion_page;
        EvToday {| year := 2024; month := 6; day := 1 |};
        EvExecuteAction NOTION_CREATE_NOTION_PAGE
          (JDict [("parent_id", JStr "parent");
                  ("title", JStr "Dinner on 2024-06-01: garlic butter shrimp")])
          r] ++ tr')%list.
Proof.
  destruct (notion_page_title (scripted happy) "garlic butter shrimp" "Boil water."
              0 0 {| year := 2024; month := 6; day := 1 |})
    as (r & r' & w' & tr' & Hrun & _).
  - reflexivity.
  - unfold valid_date. simpl. lia.
  - simpl. lia.
  - exists r, r', w', tr'. exact Hrun.
Defined.

(** ** The matcher and [extract_video_links] *)

Lemma consumed_append (x rest : string) : consumed (x ++ rest) rest = x.
Proof.
  unfold consumed. rewrite length_append.
  replace (String.length x + String.length rest - String.length rest)
    with (String.length x) by lia.
  induction x as [|c x IH]; simpl.
  - destruct rest; reflexivity.
  - now rewrite IH.
Qed.

Section Soundness.

Lemma star_iter_sound (greedy : bool) (r : regex) step :
  sound r step ->
  forall n, sound (Star greedy r) (star_iter n greedy step).
Proof.
  intros Hstep n. induction n as [|n IH]; intros s caps rest caps' Hin.
  - destruct Hin as [Heq | []]. inversion Heq; subst.
    exists "". split; [reflexivity | constructor].
  - cbn [star_iter] in Hin.
    assert (Hcases :
              (rest, caps') = (s, caps) \/
              In (rest, caps')
                 (flat_map (fun sc =>
                              if (String.length (fst sc) <? String.length s)%nat
                              then star_iter n greedy step (fst sc) (snd sc)
                              else [])
                           (step s caps))).
    { destruct greedy.
      - apply in_app_or in Hin. destruct Hin as [H | [H | []]]; [now right | now left].
      - destruct Hin as [H | H]; [now left | now right]. }
    destruct Hcases as [Heq | Hmore].
    + inversion Heq; subst. exists "". split; [reflexivity | constructor].
    + apply in_flat_map in Hmore. destruct Hmore as ([s1 c1] & Hfirst & Hrest).
      cbn [fst snd] in Hrest.
      destruct (String.length s1 <? String.length s)%nat; [|contradiction].
      destruct (Hstep _ _ _ _ Hfirst) as (x & -> & Hx).
      destruct (IH _ _ _ _ Hrest) as (y & -> & Hy).
      exists (x ++ y). split; [now rewrite append_assoc | now constructor].
Qed.

Lemma alternatives_sound (r : regex) : sound r (alternatives r).
Proof.
  induction r as [|c|p|r1 IH1 r2 IH2|r1 IH1 r2 IH2|greedy r IH|n r IH];
    intros s caps rest caps' Hin; cbn [alternatives] in Hin.
  - destruct Hin as [Heq | []]. inversion Heq; subst.
    exists "". split; [reflexivity | constructor].
  - destruct s as [|c' s]; [contradiction|].
    destruct (Ascii.eqb_spec c' c) as [->|]; [|contradiction].
    destruct Hin as [Heq | []]. inversion Heq; subst.
    exists (String c ""). split; [reflexivity | constructor].
  - destruct s as [|c' s]; [contradiction|].
    destruct (p c') eqn:Hp; [|contradiction].
    destruct Hin as [Heq | []]. inversion Heq; subst.
    exists (String c' ""). split; [reflexivity | now constructor].
  - apply in_flat_map in Hin. destruct Hin as ([s1 c1] & Hfirst & Hsecond).
    destruct (IH1 _ _ _ _ Hfirst) as (x & -> & Hx).
    destruct (IH2 _ _ _ _ Hsecond) as (y & Hy1 & Hy). cbn [fst] in Hy1. subst s1.
    exists (x ++ y). split; [now rewrite append_assoc | now constructor].
  - apply in_app_or in Hin. destruct Hin as [Hin | Hin].
    + destruct (IH1 _ _ _ _ Hin) as (x & -> & Hx). exists x. split; [reflexivity|].
      now apply MAltL.
    + destruct (IH2 _ _ _ _ Hin) as (x & -> & Hx). exists x. split; [reflexivity|].
      now apply MAltR.
  - exact (star_iter_sound greedy r _ IH _ _ _ _ _ Hin).
  - apply in_map_iff in Hin. destruct Hin as ([s1 c1] & Heq & Hin).
    cbn [fst snd] in Heq. inversion Heq; subst.
    destruct (IH _ _ _ _ Hin) as (x & -> & Hx). exists x. split; [reflexivity|].
    now constructor.
Qed.

(** A sequence tries its second part on what the first part left. *)
Lemma alternatives_seq r1 r2 s caps rest caps' :
  In (rest, caps') (alternatives (Seq r1 r2) s caps) ->
  exists s1 c1,
    In (s1, c1) (alternatives r1 s caps) /\ In (rest, caps') (alternatives r2 s1 c1).
Proof.
  cbn [alternatives]. intros Hin. apply in_flat_map in Hin.
  destruct Hin as ([s1 c1] & H1 & H2). now exists s1, c1.
Qed.

(** A group records what its body read. *)
Lemma alternatives_group n r s caps rest caps' :
  In (rest, caps') (alternatives (Group n r) s caps) ->
  exists x, s = x ++ rest /\ Matches r x /\ caps' n = Some x.
Proof.
  cbn [alternatives]. intros Hin. apply in_map_iff in Hin.
  destruct Hin as ([s1 c1] & Heq & Hin). cbn [fst snd] in Heq. inversion Heq; subst.
  destruct (alternatives_sound r _ _ _ _ Hin) as (x & -> & Hx).
  exists x. split; [reflexivity|]. split; [exact Hx|].
  unfold set_capture. now rewrite Nat.eqb_refl, consumed_append.
Qed.

End Soundness.

Lemma Matches_seq r1 r2 x :
  Matches (Seq r1 r2) x -> exists a b, x = a ++ b /\ Matches r1 a /\ Matches r2 b.
Proof.
  intros H. inversion H as [| | |r1' r2' a b Ha Hb| | | | |]; subst.
  now exists a, b.
Qed.

Lemma Matches_lit (p x : string) : Matches (lit p) x -> x = p.
Proof.
  revert x. induction p as [|c p IH]; intros x H.
  - inversion H. reflexivity.
  - destruct p as [|c' p].
    + inversion H. reflexivity.
    + change (lit (String c (String c' p)))
        with (Seq (Chr c) (lit (String c' p))) in H.
      inversion H as [| | |r1 r2 a b Ha Hb| | | | |]; subst.
      inversion Ha; subst. rewrite (IH _ Hb). reflexivity.
Qed.

Lemma Matches_star_set greedy (p : ascii -> bool) (x : string) :
  Matches (Star greedy (Set_ p)) x -> all_chars p x = true.
Proof.
  intros H. remember (Star greedy (Set_ p)) as r eqn:Hr.
  induction H as [| | | | | |g r0|g r0 a b Ha _ Hb IHb|]; try discriminate.
  - reflexivity.
  - inversion Hr; subst. inversion Ha; subst. simpl.
    rewrite IHb by reflexivity. now rewrite H0.
Qed.

(** The language of the link expression is the set of watch URLs. *)
Lemma Matches_link (x : string) : Matches link_regex x -> watch_url x.
Proof.
  unfold link_regex, plus. intros H.
  apply Matches_seq in H. destruct H as (a & b & -> & Ha & Hb).
  apply Matches_lit in Ha. subst a.
  apply Matches_seq in Hb. destruct Hb as (c & ids & -> & Hc & Hids).
  inversion Hc as [| |p ch Hch| | | | | |]; subst.
  apply Matches_star_set in Hids.
  exists (String ch ids). split; [reflexivity|]. split; [discriminate|].
  simpl. now rewrite Hch, Hids.
Qed.

Lemma hd_error_in {A} (l : list A) (a : A) : hd_error l = Some a -> In a l.
Proof. destruct l; simpl; intros H; inversion H. now left. Qed.

(** A match of the pattern records a watch URL as its second group. *)
Lemma pattern_captures_link s rest caps :
  match_here pattern s = Some (rest, caps) ->
  exists link, caps 2 = Some link /\ watch_url link.
Proof.
  unfold match_here, pattern. intros H. apply hd_error_in in H.
  do 5 (apply alternatives_seq in H; destruct H as (? & ? & _ & H)).
  apply alternatives_group in H. destruct H as (link & _ & Hlink & Hcap).
  exists link. split; [exact Hcap | now apply Matches_link].
Qed.

(** A match of the pattern reads at least one character, so the scan never
    meets an empty match. *)
Lemma pattern_match_advances s rest caps :
  match_here pattern s = Some (rest, caps) ->
  (String.length rest <? String.length s)%nat = true.
Proof.
  unfold match_here. intros H. apply hd_error_in in H.
  apply alternatives_sound in H. destruct H as (x & -> & Hx).
  unfold pattern in Hx. apply Matches_seq in Hx.
  destruct Hx as (a & b & -> & Ha & _). apply Matches_lit in Ha. subst a.
  apply Nat.ltb_lt. rewrite !length_append. simpl. lia.
Qed.

(** The bound of the scan is only a bound: more of it changes nothing. *)
Lemma scan_fuel (r : regex) (fuel1 : nat) : forall fuel2 s,
  String.length s < fuel1 -> String.length s < fuel2 ->
  scan fuel1 r s = scan fuel2 r s.
Proof.
  induction fuel1 as [|fuel1 IH]; intros fuel2 s H1 H2; [lia|].
  destruct fuel2 as [|fuel2]; [lia|]. cbn [scan].
  assert (Hnext : match s with
                  | EmptyString => []
                  | String _ s' => scan fuel1 r s'
                  end
                  = match s with
                    | EmptyString => []
                    | String _ s' => scan fuel2 r s'
                    end).
  { destruct s as [|c s']; [reflexivity|]. simpl in H1, H2. apply IH; lia. }
  rewrite Hnext.
  destruct (match_here r s) as [[rest caps]|]; [|reflexivity].
  destruct (String.length rest <? String.length s)%nat eqn:Hlt; [|reflexivity].
  apply Nat.ltb_lt in Hlt. f_equal. apply IH; lia.
Qed.

Lemma scan_captures_links (fuel : nat) : forall s,
  Forall (fun caps => exists link, caps 2 = Some link /\ watch_url link)
         (scan fuel pattern s).
Proof.
  induction fuel as [|fuel IH]; intros s; cbn [scan]; [constructor|].
  assert (Hnext : Forall (fun caps => exists link, caps 2 = Some link /\ watch_url link)
                         match s with
                         | EmptyString => []
                         | String _ s' => scan fuel pattern s'
                         end).
  { destruct s; [constructor | apply IH]. }
  destruct (match_here pattern s) as [[rest caps]|] eqn:Hmatch; [|exact Hnext].
  constructor.
  - exact (pattern_captures_link _ _ _ Hmatch).
  - destruct (String.length rest <? String.length s)%nat; [apply IH | exact Hnext].
Qed.

(** The loop of [extract_video_links] splits the pairs into two lists. *)
Lemma append_loop (matches : list (string * string)) : forall video_links titles,
  fold_left (fun acc m =>
               match acc, m with
               | (video_links, titles), (title, video_url) =>
                   ((video_links ++ [video_url])%list, (titles ++ [title])%list)
               end)
            matches (video_links, titles)
  = ((video_links ++ map snd matches)%list, (titles ++ map fst matches)%list).
Proof.
  induction matches as [|[title video_url] matches IH]; intros video_links titles.
  - simpl. now rewrite !app_nil_r.
  - cbn [fold_left map fst snd]. rewrite IH. now rewrite <- !app_assoc.
Qed.

Lemma combine_fst_snd {A B} (l : list (A * B)) :
  combine (map fst l) (map snd l) = l.
Proof. induction l as [|[a b] l IH]; simpl; [reflexivity | now rewrite IH]. Qed.

(** C10: [extract_video_links] returns two lists of the same length; the
    i-th title and the i-th link are the two groups of the i-th match of
    the pattern; and every link is the watch-URL prefix followed by one or
    more characters of [[a-zA-Z0-9_-]]. *)
Theorem extract_video_links_pairs (text_response : string) :
  exists video_links titles,
    extract_video_links text_response = (video_links, titles) /\
    length video_links = length titles /\
    combine titles video_links = findall pattern text_response /\
    (forall i link,
        nth_error video_links i = Some link ->
        exists title,
          nth_error titles i = Some title /\
          nth_error (findall pattern text_response) i = Some (title, link)) /\
    Forall watch_url video_links.
Proof.
  exists (map snd (findall pattern text_response)),
         (map fst (findall pattern text_response)).
  split; [|split; [|split; [|split]]].
  - unfold extract_video_links. cbv zeta. now rewrite append_loop.
  - now rewrite !length_map.
  - apply combine_fst_snd.
  - intros i link Hlink. rewrite nth_error_map in Hlink.
    destruct (nth_error (findall pattern text_response) i) as [[title link']|] eqn:Hm;
      [|discriminate].
    simpl in Hlink. inversion Hlink; subst link'. exists title.
    split; [|reflexivity]. rewrite nth_error_map, Hm. reflexivity.
  - unfold findall. rewrite map_map. cbn [snd]. apply Forall_map.
    eapply Forall_impl; [|apply scan_captures_links].
    intros caps (link & Hcap & Hurl). unfold group. now rewrite Hcap.
Qed.

(** ** Runs on concrete inputs *)

Example extract_video_links_sample :
  extract_video_links sample_response =
    (["https://www.youtube.com/watch?v=abc_-123";
      "https://www.youtube.com/watch?v=Z9"],
     ["Easy Pasta"; "C"]).
Proof. vm_compute. reflexivity. Qed.

Example strftime_sample :
  strftime "%Y-%m-%d" {| year := 2024; month := 6; day := 1 |} = "2024-06-01".
Proof. reflexivity. Qed.

Example transcripts_sample :
  get_video_transcripts (scripted happy) ["u1"; "u2"; "u1"] 0 =
    (Ok [("u1", "boil water"); ("u2", "boil water")], 3,
     [EvEnter F_get_video_transcripts;
      EvLoadData ["u1"] (on_load happy "u1");
      EvLoadData ["u2"] (on_load happy "u2");
      EvLoadData ["u1"] (on_load happy "u1")]).
Proof. reflexivity. Qed.

(** The example of the specification: three steps answer, one page is
    created with the dated title, and the recipe is appended to it. *)
Example happy_run :
  exists tr,
    main (scripted happy) 0 = (Ok tt, 8, tr) /\
    count is_create_page tr = 1 /\
    count is_append_content tr = 1 /\
    In (EvExecuteAction NOTION_CREATE_NOTION_PAGE
          (JDict [("parent_id", JStr "parent");
                  ("title", JStr "Dinner on 2024-06-01: garlic butter shrimp")])
          (Ok page_created)) tr /\
    In (EvExecuteAction NOTION_ADD_PAGE_CONTENT
          (JDict [("parent_block_id", JStr "page-1");
                  ("content_block", JDict [("content", JStr "Boil water.")])])
          (on_append happy)) tr.
Proof.
  eexists. split; [vm_compute; reflexivity|].
  split; [reflexivity|]. split; [reflexivity|]. split.
  - do 16 right. left. reflexivity.
  - do 17 right. left. reflexivity.
Qed.

(** * Further properties *)

(** ** The search step *)

Lemma mapM_ok_forall {A B} (f : A -> result B) (P : B -> Prop) (l : list A) :
  (forall x y, In x l -> f x = Ok y -> P y) ->
  forall ys, mapM f l = Ok ys -> Forall P ys /\ length ys = length l.
Proof.
  induction l as [|x l IH]; intros Hf ys H; simpl in H.
  - inversion H. split; [constructor | reflexivity].
  - destruct (f x) as [y|e] eqn:Hx; [|discriminate].
    destruct (mapM f l) as [ys'|e] eqn:Hl; [|discriminate].
    inversion H; subst.
    destruct (IH (fun x' y' Hin => Hf x' y' (or_intror Hin)) ys' eq_refl) as [HP Hlen].
    split.
    + constructor; [apply (Hf x y (or_introl eq_refl) Hx) | exact HP].
    + simpl. now rewrite Hlen.
Qed.

Lemma mapM_raises {A B} (f : A -> result B) (l : list A) :
  Exists (fun x => is_raise (f x) = true) l -> is_raise (mapM f l) = true.
Proof.
  induction l as [|x l IH]; intros H; [inversion H|]. simpl.
  destruct (f x) as [y|e] eqn:Hx; [|reflexivity].
  inversion H as [? ? Hhead | ? ? Htail]; subst.
  - rewrite Hx in Hhead. discriminate.
  - specialize (IH Htail). destruct (mapM f l); [discriminate | reflexivity].
Qed.

Lemma mapM_map {A B C} (f : A -> result B) (g : C -> B) (l : list A) (l' : list C) :
  Forall2 (fun x c => f x = Ok (g c)) l l' -> mapM f l = Ok (map g l').
Proof.
  induction 1 as [|x c l l' Hx _ IH]; simpl; [reflexivity|].
  now rewrite Hx, IH.
Qed.

Section Search.

Variable E : Externals.

(** The body of the comprehension, through [video_id_of]. *)
Lemma watch_url_of_item (item : json) :
  bind_result (py_getitem item "id")
    (fun id => bind_result (py_getitem id "videoId")
       (fun videoId => Ok ("https://www.youtube.com/watch?v=" ++ py_str E videoId)))
  = bind_result (video_id_of item)
      (fun videoId => Ok (watch_prefix ++ py_str E videoId)).
Proof. unfold video_id_of. destruct (py_getitem item "id"); reflexivity. Qed.

(** The run of the search step once the client is built and the request
    has answered. *)
Lemma search_request_answers query max_results (w w1 w2 : World E) search_response :
  youtube_build E (GOOGLE_API_KEY E) w = (Ok tt, w1) ->
  youtube_search_list_execute E query max_results w1 = (Ok search_response, w2) ->
  search_youtube_videos_api E query max_results w =
    (bind_result (bind_result (py_get search_response "items" (JList [])) py_iter)
       (mapM (fun item => bind_result (video_id_of item)
                (fun videoId => Ok (watch_prefix ++ py_str E videoId)))),
     w2,
     [EvEnter F_search_youtube_videos_api;
      EvBuild (GOOGLE_API_KEY E) (Ok tt);
      EvSearch query max_results (Ok search_response)]).
Proof.
  intros Hbuild Hsearch. unfold search_youtube_videos_api. unfold_run.
  rewrite Hbuild, Hsearch. cbv beta iota zeta.
  destruct (bind_result (py_get search_response "items" (JList [])) _)
    as [items|e] eqn:Hitems.
  - cbn [bind_result app].
    replace (mapM _ items)
      with (mapM (fun item => bind_result (video_id_of item)
                    (fun videoId => Ok (watch_prefix ++ py_str E videoId))) items).
    + destruct (mapM _ items); reflexivity.
    + clear. induction items as [|item items IH]; [reflexivity|].
      cbn [mapM]. rewrite IH, watch_url_of_item. reflexivity.
  - reflexivity.
Qed.

Lemma search_build_raises query max_results (w w1 : World E) (e : exn) :
  youtube_build E (GOOGLE_API_KEY E) w = (Raise e, w1) ->
  search_youtube_videos_api E query max_results w =
    (Raise e, w1,
     [EvEnter F_search_youtube_videos_api; EvBuild (GOOGLE_API_KEY E) (Raise e)]).
Proof.
  intros Hbuild. unfold search_youtube_videos_api. unfold_run.
  rewrite Hbuild. reflexivity.
Qed.

Lemma search_result_prefix query max_results (w w' : World E)
        (video_urls : list string) (tr : list Event) :
  search_youtube_videos_api E query max_results w = (Ok video_urls, w', tr) ->
  Forall (starts_with "https://www.youtube.com/watch?v=") video_urls.
Proof.
  intros Hrun.
  destruct (youtube_build E (GOOGLE_API_KEY E) w) as [[[] | e] w1] eqn:Hbuild.
  - destruct (youtube_search_list_execute E query max_results w1)
      as [[search_response | e] w2] eqn:Hsearch.
    + rewrite (search_request_answers _ _ _ _ _ _ Hbuild Hsearch) in Hrun.
      destruct (bind_result (py_get search_response "items" (JList [])) py_iter)
        as [items | e]; [|discriminate].
      cbn [bind_result] in Hrun.
      destruct (mapM _ items) as [urls | e] eqn:Hmap; [|discriminate].
      inversion Hrun; subst.
      refine (proj1 (mapM_ok_forall _ _ items _ _ Hmap)).
      intros item url _ Hurl.
      destruct (video_id_of item) as [videoId|]; [|discriminate].
      inversion Hurl. now exists (py_str E videoId).
    + rewrite (search_request_raises E _ _ _ _ _ _ Hbuild Hsearch) in Hrun.
      inversion Hrun. constructor.
  - rewrite (search_build_raises _ _ _ _ _ Hbuild) in Hrun. discriminate.
Qed.

End Search.

Section SearchProperties.

Variable E : Externals.

(** X1: when the request answers with a dict whose ["items"] is a list of
    items that each hold a string under [['id']['videoId']], the search
    step returns, in the order of the items, the watch URL of every
    identifier, and prints nothing. *)
Theorem search_returns_watch_urls query max_results (w w1 w2 : World E)
        (d : list (string * json)) (items : list json) (ids : list string) :
  youtube_build E (GOOGLE_API_KEY E) w = (Ok tt, w1) ->
  youtube_search_list_execute E query max_results w1 = (Ok (JDict d), w2) ->
  assoc "items" d = Some (JList items) ->
  Forall2 (fun item id => video_id_of item = Ok (JStr id)) items ids ->
  search_youtube_videos_api E query max_results w =
    (Ok (map (fun id => "https://www.youtube.com/watch?v=" ++ id) ids), w2,
     [EvEnter F_search_youtube_videos_api;
      EvBuild (GOOGLE_API_KEY E) (Ok tt);
      EvSearch query max_results (Ok (JDict d))]).
Proof.
  intros Hbuild Hsearch Hitems Hids.
  rewrite (search_request_answers E _ _ _ _ _ _ Hbuild Hsearch).
  cbn [py_get bind_result]. rewrite Hitems. cbn [py_iter bind_result].
  rewrite (mapM_map _ (fun id => watch_prefix ++ id) items ids); [reflexivity|].
  clear -Hids. induction Hids as [|item id items ids Hid _ IH]; constructor.
  - now rewrite Hid.
  - exact IH.
Qed.

(** X2: whatever the request answers, every URL the search step returns
    starts with the watch-URL prefix. *)
Theorem search_urls_have_prefix query max_results (w w' : World E)
        (video_urls : list string) (tr : list Event) :
  search_youtube_videos_api E query max_results w = (Ok video_urls, w', tr) ->
  Forall (starts_with "https://www.youtube.com/watch?v=") video_urls.
Proof. exact (search_result_prefix E query max_results w w' video_urls tr). Qed.

(** X3: a response without an ["items"] entry gives the empty list, with
    no message: the default of [.get] stands in for the missing key. *)
Theorem search_without_items query max_results (w w1 w2 : World E)
        (d : list (string * json)) :
  youtube_build E (GOOGLE_API_KEY E) w = (Ok tt, w1) ->
  youtube_search_list_execute E query max_results w1 = (Ok (JDict d), w2) ->
  assoc "items" d = None ->
  search_youtube_videos_api E query max_results w =
    (Ok [], w2,
     [EvEnter F_search_youtube_videos_api;
      EvBuild (GOOGLE_API_KEY E) (Ok tt);
      EvSearch query max_results (Ok (JDict d))]).
Proof.
  intros Hbuild Hsearch Hitems.
  rewrite (search_request_answers E _ _ _ _ _ _ Hbuild Hsearch).
  cbn [py_get bind_result]. now rewrite Hitems.
Qed.

(** X4: the handler of the search step covers the request only.  When one
    item of the answer has no [['id']['videoId']], the exception of that
    lookup leaves the function: no list is returned, even for the items
    that are well formed, and nothing is printed. *)
Theorem search_malformed_item_raises query max_results (w w1 w2 : World E)
        (d : list (string * json)) (items : list json) :
  youtube_build E (GOOGLE_API_KEY E) w = (Ok tt, w1) ->
  youtube_search_list_execute E query max_results w1 = (Ok (JDict d), w2) ->
  assoc "items" d = Some (JList items) ->
  Exists (fun item => is_raise (video_id_of item) = true) items ->
  exists e,
    search_youtube_videos_api E query max_results w =
      (Raise e, w2,
       [EvEnter F_search_youtube_videos_api;
        EvBuild (GOOGLE_API_KEY E) (Ok tt);
        EvSearch query max_results (Ok (JDict d))]).
Proof.
  intros Hbuild Hsearch Hitems Hbad.
  rewrite (search_request_answers E _ _ _ _ _ _ Hbuild Hsearch).
  cbn [py_get bind_result]. rewrite Hitems. cbn [py_iter bind_result].
  assert (Hraise : is_raise
            (mapM (fun item => bind_result (video_id_of item)
                     (fun videoId => Ok (watch_prefix ++ py_str E videoId))) items)
          = true).
  { apply mapM_raises. eapply Exists_impl; [|exact Hbad].
    intros item Hitem. cbv beta in *. destruct (video_id_of item); [discriminate | reflexivity]. }
  destruct (mapM _ items) as [urls | e]; [discriminate|]. now exists e.
Qed.

(** X5: the client is built outside the [try].  When [build] raises, the
    exception leaves the search step and no request is made. *)
Theorem search_build_failure_propagates query max_results (w w1 : World E) (e : exn) :
  youtube_build E (GOOGLE_API_KEY E) w = (Raise e, w1) ->
  search_youtube_videos_api E query max_results w =
    (Raise e, w1,
     [EvEnter F_search_youtube_videos_api; EvBuild (GOOGLE_API_KEY E) (Raise e)]).
Proof. exact (search_build_raises E query max_results w w1 e). Qed.

End SearchProperties.

Lemma search_build_failure_propagates_witness :
  search_youtube_videos_api build_down "ramen" 3 0 =
    (Raise boom, 1,
     [EvEnter F_search_youtube_videos_api; EvBuild (Some "g-key") (Raise boom)]).
Proof.
  apply (search_build_failure_propagates build_down "ramen" 3 0 1 boom). reflexivity.
Defined.

Lemma search_returns_watch_urls_witness :
  search_youtube_videos_api (scripted happy) "ramen" 3 0 =
    (Ok ["https://www.youtube.com/watch?v=aaa"; "https://www.youtube.com/watch?v=bbb"],
     2,
     [EvEnter F_search_youtube_videos_api;
      EvBuild (Some "g-key") (Ok tt);
      EvSearch "ramen" 3 (on_search happy)]).
Proof.
  apply (search_returns_watch_urls (scripted happy) "ramen" 3 0 1 2
           [("items", JList [video "aaa"; video "bbb"])]
           [video "aaa"; video "bbb"] ["aaa"; "bbb"]);
    try reflexivity.
  repeat constructor.
Defined.

Lemma search_urls_have_prefix_witness :
  Forall (starts_with "https://www.youtube.com/watch?v=")
         ["https://www.youtube.com/watch?v=aaa"; "https://www.youtube.com/watch?v=bbb"].
Proof.
  apply (search_urls_have_prefix (scripted happy) "ramen" 3 0 2 _
           [EvEnter F_search_youtube_videos_api;
            EvBuild (Some "g-key") (Ok tt);
            EvSearch "ramen" 3 (on_search happy)]).
  reflexivity.
Defined.

Lemma search_without_items_witness :
  search_youtube_videos_api (scripted no_items) "ramen" 3 0 =
    (Ok [], 2,
     [EvEnter F_search_youtube_videos_api;
      EvBuild (Some "g-key") (Ok tt);
      EvSearch "ramen" 3 (Ok (JDict []))]).
Proof.
  apply (search_without_items (scripted no_items) "ramen" 3 0 1 2 []); reflexivity.
Defined.

Lemma search_malformed_item_raises_witness :
  exists e,
    search_youtube_videos_api (scripted channel_item) "ramen" 3 0 =
      (Raise e, 2,
       [EvEnter F_search_youtube_videos_api;
        EvBuild (Some "g-key") (Ok tt);
        EvSearch "ramen" 3 (on_search channel_item)]).
Proof.
  apply (search_malformed_item_raises (scripted channel_item) "ramen" 3 0 1 2
           [("items", JList [video "aaa";
                             JDict [("id", JDict [("channelId", JStr "c1")])]])]
           [video "aaa"; JDict [("id", JDict [("channelId", JStr "c1")])]]);
    try reflexivity.
  apply Exists_cons_tl. apply Exists_cons_hd. reflexivity.
Defined.

(** ** The transcript step *)

Lemma dict_set_in d k v : In (k, v) (dict_set d k v).
Proof.
  induction d as [|[k' v'] d IH]; simpl.
  - now left.
  - destruct (String.eqb_spec k' k) as [->|Hne]; [now left | now right].
Qed.

Lemma dict_set_other d k v k' v' :
  k' <> k -> In (k', v') d -> In (k', v') (dict_set d k v).
Proof.
  intros Hne. induction d as [|[k0 v0] d IH]; simpl; [tauto|].
  intros [Heq | Hin].
  - inversion Heq; subst. destruct (String.eqb_spec k' k); [contradiction | now left].
  - destruct (String.eqb_spec k0 k); right; [exact Hin | now apply IH].
Qed.

Lemma dict_set_entries d k v k' v' :
  In (k', v') (dict_set d k v) -> (k', v') = (k, v) \/ In (k', v') d.
Proof.
  induction d as [|[k0 v0] d IH]; simpl.
  - intros [H | []]. left. now symmetry.
  - destruct (String.eqb_spec k0 k) as [->|Hne]; simpl.
    + intros [H | H]; [left; now symmetry | right; now right].
    + intros [H | H]; [right; now left|].
      destruct (IH H) as [Heq | Hin]; [now left | right; now right].
Qed.

Section Fetching.

Variable E : Externals.

Lemma for_each_url_replay urls : forall acc (w : World E),
  exists d w' tr,
    for_each_url E urls acc w = (Ok d, w', tr) /\
    fetched_links tr = map (fun url => [url]) urls /\
    d = fold_left store_fetch tr acc.
Proof.
  induction urls as [|url rest IH]; intros acc w.
  - exists acc, w, []. repeat split.
  - destruct (loader_load_data E [url] w) as [[docs | e] w1] eqn:Hload.
    + rewrite (for_each_url_ok E _ _ _ _ _ _ Hload).
      destruct (IH (dict_set acc url (join "" (map doc_text docs))) w1)
        as (d & w' & tr & Hrun & Hlinks & Hd).
      rewrite Hrun. eexists _, _, _. split; [reflexivity|]. split.
      * cbn [fetched_links flat_map app map]. f_equal. exact Hlinks.
      * exact Hd.
    + rewrite (for_each_url_raise E _ _ _ _ _ _ Hload).
      destruct (IH acc w1) as (d & w' & tr & Hrun & Hlinks & Hd).
      rewrite Hrun. eexists _, _, _. split; [reflexivity|]. split.
      * cbn [fetched_links flat_map app map]. f_equal. exact Hlinks.
      * exact Hd.
Qed.

(** What a replay stores comes from an answered fetch of the same URL. *)
Lemma replay_entries (tr : list Event) : forall acc url text,
  In (url, text) (fold_left store_fetch tr acc) ->
  In (url, text) acc \/
  exists docs, In (EvLoadData [url] (Ok docs)) tr /\ text = join "" (map doc_text docs).
Proof.
  induction tr as [|ev tr IH]; intros acc url text Hin; [now left|].
  cbn [fold_left] in Hin. destruct (IH _ _ _ Hin) as [Hacc | (docs & Hdocs & Htext)].
  - destruct ev as [| | | | |links r| | |]; try (now left).
    destruct links as [|u [|? ?]]; try (now left).
    destruct r as [docs|]; try (now left).
    cbn [store_fetch] in Hacc. apply dict_set_entries in Hacc.
    destruct Hacc as [Heq | Hacc]; [|now left].
    inversion Heq; subst. right. exists docs. split; [now left | reflexivity].
  - right. exists docs. split; [now right | exact Htext].
Qed.

(** A fetch that answered keeps its text unless a later fetch of the same
    URL answers too. *)
Lemma replay_keeps (tr : list Event) : forall acc url text,
  In (url, text) acc ->
  (forall docs, ~ In (EvLoadData [url] (Ok docs)) tr) ->
  In (url, text) (fold_left store_fetch tr acc).
Proof.
  induction tr as [|ev tr IH]; intros acc url text Hin Hlater; [exact Hin|].
  cbn [fold_left]. apply IH.
  - destruct ev as [| | | | |links r| | |]; try exact Hin.
    destruct links as [|u [|? ?]]; try exact Hin.
    destruct r as [docs|]; try exact Hin.
    cbn [store_fetch]. apply dict_set_other; [|exact Hin].
    intros ->. apply (Hlater docs). now left.
  - intros docs Hdocs. apply (Hlater docs). now right.
Qed.

Lemma fold_store_app tr1 tr2 acc :
  fold_left store_fetch (tr1 ++ tr2) acc
  = fold_left store_fetch tr2 (fold_left store_fetch tr1 acc).
Proof. apply fold_left_app. Qed.

Lemma transcripts_replay_aux (video_urls : list string) (w : World E) :
  exists transcripts w' tr,
    get_video_transcripts E video_urls w = (Ok transcripts, w', tr) /\
    transcripts = replay tr.
Proof.
  destruct (for_each_url_replay video_urls [] w) as (d & w' & tr & Hrun & _ & Hd).
  exists d, w', (EvEnter F_get_video_transcripts :: tr).
  unfold get_video_transcripts. unfold_run. rewrite Hrun.
  split; [reflexivity | exact Hd].
Qed.

(** X6: the transcript step asks the loader once for every URL of its
    input, one URL per call, in the order of the input; a fetch that
    raises does not end the loop. *)
Theorem transcripts_fetch_each_url_once (video_urls : list string) (w : World E) :
  exists transcripts w' tr,
    get_video_transcripts E video_urls w = (Ok transcripts, w', tr) /\
    fetched_links tr = map (fun url => [url]) video_urls /\
    count is_load_data tr = length video_urls.
Proof.
  destruct (for_each_url_replay video_urls [] w) as (d & w' & tr & Hrun & Hlinks & _).
  exists d, w', (EvEnter F_get_video_transcripts :: tr).
  unfold get_video_transcripts. unfold_run. rewrite Hrun.
  split; [reflexivity|]. split; [exact Hlinks|].
  unfold count. cbn [filter is_load_data].
  rewrite <- (length_map (fun url => [url]) video_urls), <- Hlinks.
  clear. induction tr as [|ev tr IH]; [reflexivity|].
  destruct ev; cbn [filter is_load_data fetched_links flat_map app length];
    unfold fetched_links in IH; rewrite ?IH; reflexivity.
Qed.

(** X7: the mapping the transcript step returns is the one its answered
    fetches build when replayed in order; so every transcript in it is
    the concatenation of the documents of an answered fetch of its own
    URL. *)
Theorem transcripts_replay_fetches (video_urls : list string) (w : World E) :
  exists transcripts w' tr,
    get_video_transcripts E video_urls w = (Ok transcripts, w', tr) /\
    transcripts = replay tr /\
    (forall url text,
        In (url, text) transcripts ->
        exists docs,
          In (EvLoadData [url] (Ok docs)) tr /\
          text = join "" (map doc_text docs)).
Proof.
  destruct (for_each_url_replay video_urls [] w) as (d & w' & tr & Hrun & _ & Hd).
  exists d, w', (EvEnter F_get_video_transcripts :: tr).
  unfold get_video_transcripts. unfold_run. rewrite Hrun.
  split; [reflexivity|]. split; [exact Hd|].
  intros url text Hin. rewrite Hd in Hin.
  destruct (replay_entries tr [] url text Hin) as [[] | (docs & Hdocs & Htext)].
  exists docs. split; [now right | exact Htext].
Qed.

(** X8: when a URL is fetched more than once, the last fetch that answered
    decides its transcript. *)
Theorem transcripts_last_fetch_wins (video_urls : list string) (w w' : World E)
        (transcripts : pydict) (before after : list Event)
        (url : string) (docs : list Document) :
  get_video_transcripts E video_urls w =
    (Ok transcripts, w', before ++ EvLoadData [url] (Ok docs) :: after)%list ->
  (forall docs', ~ In (EvLoadData [url] (Ok docs')) after) ->
  dict_getitem transcripts url = Ok (join "" (map doc_text docs)).
Proof.
  intros Hrun Hlast.
  destruct (get_video_transcripts_spec E video_urls w)
    as (d & w1 & tr & Hspec & _ & Hwf & _).
  destruct (transcripts_replay_aux video_urls w) as (d' & w2 & tr' & Hrun' & Hd).
  rewrite Hrun in Hspec, Hrun'.
  assert (Hd1 : d = transcripts) by congruence.
  assert (Hd2 : d' = transcripts) by congruence.
  assert (Htr : tr' = (before ++ EvLoadData [url] (Ok docs) :: after)%list) by congruence.
  rewrite Hd1 in Hwf. rewrite Hd2, Htr in Hd. clear Hspec Hrun' Hd1 Hd2 Htr.
  assert (Hin : In (url, join "" (map doc_text docs)) transcripts).
  { rewrite Hd. unfold replay. rewrite fold_store_app. cbn [fold_left store_fetch].
    apply replay_keeps; [apply dict_set_in | exact Hlast]. }
  unfold dict_getitem. now rewrite (assoc_of_entry transcripts url _ Hwf Hin).
Qed.

End Fetching.

Lemma transcripts_last_fetch_wins_witness :
  dict_getitem [("u1", "take 2"); ("u2", "take 1")] "u1" = Ok "take 2".
Proof.
  apply (transcripts_last_fetch_wins takes ["u1"; "u2"; "u1"] 0 3
           [("u1", "take 2"); ("u2", "take 1")]
           [EvEnter F_get_video_transcripts;
            EvLoadData ["u1"] (Ok [ {| doc_text := "take 0" |} ]);
            EvLoadData ["u2"] (Ok [ {| doc_text := "take 1" |} ])]
           [] "u1" [ {| doc_text := "take 2" |} ]).
  - reflexivity.
  - intros docs' [].
Defined.

(** ** The selector *)

Section Selecting.

Variable E : Externals.

(** The lookups of the comprehension never fail: every key it asks for
    is a key of the mapping it iterates. *)
Lemma blocks_never_raise (transcripts d : pydict) :
  incl (dict_keys d) (dict_keys transcripts) ->
  exists blocks,
    mapM (fun url =>
            bind_result (dict_getitem transcripts url)
                        (fun transcript => Ok ("Video: " ++ url ++ LF ++ transcript)))
         (dict_keys d)
    = Ok blocks.
Proof.
  induction d as [|[k v] d IH]; intros Hincl.
  - now exists [].
  - change (dict_keys ((k, v) :: d)) with (k :: dict_keys d) in *.
    destruct IH as [blocks Hblocks]; [intros x Hx; apply Hincl; now right|].
    assert (Hk : exists t, assoc k transcripts = Some t).
    { assert (Hin : In k (dict_keys transcripts)) by (apply Hincl; now left).
      clear -Hin. induction transcripts as [|[k' v'] t IH]; [contradiction|].
      simpl. destruct (String.eqb_spec k' k) as [->|Hne]; [now exists v'|].
      destruct Hin as [Heq | Hin]; [simpl in Heq; contradiction | now apply IH]. }
    destruct Hk as [t Ht]. cbn [mapM]. unfold dict_getitem at 1. rewrite Ht.
    cbn [bind_result]. rewrite Hblocks. now eexists.
Qed.

(** X9: what the transcript step returns is always a mapping the selector
    can use.  When at least one fetch answered, the selector makes its one
    completion call, with the prompt of that mapping, and returns the
    outcome of the call. *)
Theorem fetched_transcripts_feed_the_selector (video_urls : list string)
        (w w1 : World E) (transcripts : pydict) (tr : list Event) :
  get_video_transcripts E video_urls w = (Ok transcripts, w1, tr) ->
  (exists url docs, In (EvLoadData [url] (Ok docs)) tr) ->
  exists r w2,
    llm_complete E (prompt_of transcripts) w1 = (r, w2) /\
    select_best_recipe E transcripts w1 =
      (recipe_of r, w2,
       [EvEnter F_select_best_recipe; EvComplete (prompt_of transcripts) r]).
Proof.
  intros Hrun (url & docs & Hin).
  destruct (get_video_transcripts_spec E video_urls w)
    as (d & w' & tr' & Hspec & _ & Hwf & _ & Hkeys).
  rewrite Hrun in Hspec.
  assert (Hd : d = transcripts) by congruence.
  assert (Htr : tr' = tr) by congruence. subst d tr'. clear Hspec.
  assert (Hne : transcripts <> []).
  { intros ->. apply (proj2 (Hkeys url)). now exists docs. }
  destruct (llm_complete E (prompt_of transcripts) w1) as [r w2] eqn:Hllm.
  exists r, w2. split; [reflexivity|].
  now rewrite (select_best_recipe_nonempty E transcripts w1 Hne Hwf), Hllm.
Qed.

(** X10: the selector raises only what the completion call raises; the
    lookups [transcripts[url]] of its comprehension never raise, whatever
    the mapping. *)
Theorem select_raises_only_the_completion (transcripts : pydict)
        (w w' : World E) (e : exn) (tr : list Event) :
  select_best_recipe E transcripts w = (Raise e, w', tr) ->
  exists prompt,
    llm_complete E prompt w = (Raise e, w') /\
    tr = [EvEnter F_select_best_recipe; EvComplete prompt (Raise e)].
Proof.
  unfold select_best_recipe. destruct transcripts as [|entry rest].
  - intros H. inversion H.
  - destruct (blocks_never_raise (entry :: rest) (entry :: rest)) as [blocks Hblocks];
      [apply incl_refl|].
    unfold_run. rewrite Hblocks. cbv beta iota zeta.
    destruct (llm_complete E _ w) as [[response | e'] w1] eqn:Hllm; intros H.
    + destruct response; inversion H.
    + inversion H; subst. eexists. split; [exact Hllm | reflexivity].
Qed.

End Selecting.

Lemma fetched_transcripts_feed_the_selector_witness :
  exists r w2,
    select_best_recipe (scripted one_transcript)
      [("https://www.youtube.com/watch?v=bbb", "fry")] 2 =
      (recipe_of r, w2,
       [EvEnter F_select_best_recipe;
        EvComplete (prompt_of [("https://www.youtube.com/watch?v=bbb", "fry")]) r]).
Proof.
  destruct (fetched_transcripts_feed_the_selector (scripted one_transcript)
              ["https://www.youtube.com/watch?v=aaa"; "https://www.youtube.com/watch?v=bbb"]
              0 2 [("https://www.youtube.com/watch?v=bbb", "fry")]
              [EvEnter F_get_video_transcripts;
               EvLoadData ["https://www.youtube.com/watch?v=aaa"] (Raise boom);
               EvPrint ("âš ï¸ Failed to fetch transcript for " ++ "https://www.youtube.com/watch?v=aaa"
                        ++ ": " ++ exc_str boom);
               EvLoadData ["https://www.youtube.com/watch?v=bbb"]
                          (Ok [ {| doc_text := "fry" |} ])])
    as (r & w2 & _ & Hrun).
  - reflexivity.
  - exists "https://www.youtube.com/watch?v=bbb", [ {| doc_text := "fry" |} ].
    do 3 right. now left.
  - now exists r, w2.
Defined.

Lemma select_raises_only_the_completion_witness :
  exists prompt,
    llm_complete (scripted llm_down) prompt 0 = (Raise boom, 1).
Proof.
  destruct (select_raises_only_the_completion (scripted llm_down) [("u1", "stir")]
              0 1 boom
              [EvEnter F_select_best_recipe;
               EvComplete (prompt_of [("u1", "stir")]) (Raise boom)])
    as (prompt & Hllm & _).
  - reflexivity.
  - now exists prompt.
Defined.

(** ** The publish step *)

(** Goes through the members of an explicit list. *)
Ltac in_list H k :=
  cbn [In app] in H;
  repeat (destruct H as [H | H]; [inversion H; subst; k | ]);
  try contradiction H.

Section Publishing.

Variable E : Externals.

(** The calls of the notes service in a run of [create_notion_page]. *)
Lemma create_notion_page_calls recipe_name recipe_content (w w' : World E) r tr :
  create_notion_page E recipe_name recipe_content w = (r, w', tr) ->
  always publish_event tr /\
  count is_create_page tr = 1 /\
  count is_append_content tr <= 1 /\
  (exists d, In (EvToday d) tr /\
     forall params res,
       In (EvExecuteAction NOTION_CREATE_NOTION_PAGE params res) tr ->
       params = create_page_params E (notion_title d recipe_name)) /\
  (forall params res,
      In (EvExecuteAction NOTION_ADD_PAGE_CONTENT params res) tr ->
      exists create_params page_response page_id,
        In (EvExecuteAction NOTION_CREATE_NOTION_PAGE create_params (Ok page_response)) tr /\
        nested_page_id page_response = Ok page_id /\
        truthy page_id = true /\
        params = add_content_params page_id recipe_content) /\
  (forall action params res,
      In (EvExecuteAction action params res) tr ->
      action = NOTION_CREATE_NOTION_PAGE \/ action = NOTION_ADD_PAGE_CONTENT).
Proof.
  rewrite create_notion_page_run. unfold create_page_events.
  destruct (datetime_today E w) as [d w1].
  destruct (toolset_execute_action E NOTION_CREATE_NOTION_PAGE _ w1)
    as [[page_response | e] w2].
  - destruct (nested_page_id page_response) as [page_id | e] eqn:Hid.
    + destruct (truthy page_id) eqn:Htruthy; cbn [negb].
      * destruct (toolset_execute_action E NOTION_ADD_PAGE_CONTENT _ w2)
          as [[content_response | e] w3];
          [destruct (py_get content_response "successfull" JNone) as [flag | e]|];
          intros H; inversion H; subst; clear H;
          (split; [reflexivity|]);
          (split; [reflexivity|]);
          (split; [unfold count; cbn; lia|]);
          (split; [exists d; split; [cbn; tauto|];
                   intros params res Hin; in_list Hin ltac:(reflexivity)|]);
          (split; [intros params res Hin;
                   in_list Hin ltac:(eexists _, page_response, page_id;
                                     split; [cbn; tauto|];
                                     split; [exact Hid|];
                                     split; [exact Htruthy | reflexivity])
                  |intros action params res Hin; in_list Hin ltac:(tauto)]).
      * intros H; inversion H; subst; clear H.
        split; [reflexivity|]. split; [reflexivity|]. split; [unfold count; cbn; lia|].
        split; [exists d; split; [cbn; tauto|];
                intros params res Hin; in_list Hin ltac:(reflexivity)|].
        split; [intros params res Hin; in_list Hin ltac:(idtac)
               |intros action params res Hin; in_list Hin ltac:(tauto)].
    + intros H; inversion H; subst; clear H.
      split; [reflexivity|]. split; [reflexivity|]. split; [unfold count; cbn; lia|].
      split; [exists d; split; [cbn; tauto|];
              intros params res Hin; in_list Hin ltac:(reflexivity)|].
      split; [intros params res Hin; in_list Hin ltac:(idtac)
             |intros action params res Hin; in_list Hin ltac:(tauto)].
  - intros H; inversion H; subst; clear H.
    split; [reflexivity|]. split; [reflexivity|]. split; [unfold count; cbn; lia|].
    split; [exists d; split; [cbn; tauto|];
            intros params res Hin; in_list Hin ltac:(reflexivity)|].
    split; [intros params res Hin; in_list Hin ltac:(idtac)
           |intros action params res Hin; in_list Hin ltac:(tauto)].
Qed.

End Publishing.

Section PublishingProperties.

Variable E : Externals.

(** X11: once the page exists, the recipe is appended to it, and what
    follows depends on the answer of that call.  A dict: the function
    returns after one line, the success line when the entry
    ["successfull"] is the boolean [True], the failure line for any other
    value and when the entry is missing.  A raise: the exception leaves
    the function.  Anything that is not a dict: [.get] raises
    [AttributeError].  In the last two cases nothing is printed. *)
Theorem publish_reports_the_flag (recipe_name recipe_content : string)
        (w w1 w2 w3 : World E) (d : datetime) (page_response page_id : json)
        (appended : result json) :
  datetime_today E w = (d, w1) ->
  toolset_execute_action E NOTION_CREATE_NOTION_PAGE
    (create_page_params E (notion_title d recipe_name)) w1 = (Ok page_response, w2) ->
  nested_page_id page_response = Ok page_id ->
  truthy page_id = true ->
  toolset_execute_action E NOTION_ADD_PAGE_CONTENT
    (add_content_params page_id recipe_content) w2 = (appended, w3) ->
  let called :=
    (create_page_events E d recipe_name (Ok page_response)
     ++ [EvExecuteAction NOTION_ADD_PAGE_CONTENT
           (JDict [("parent_block_id", page_id);
                   ("content_block", JDict [("content", JStr recipe_content)])])
           appended])%list in
  (forall content_response,
      appended = Ok (JDict content_response) ->
      exists line,
        create_notion_page E recipe_name recipe_content w =
          (Ok tt, w3, called ++ [EvPrint line])%list /\
        (assoc "successfull" content_response = Some (JBool true) ->
         line = "âœ… Recipe '" ++ recipe_name ++ "' saved in Notion!") /\
        (assoc "successfull" content_response <> Some (JBool true) ->
         line = "âŒ Failed to add content. Response: "
                ++ py_str E (JDict content_response))) /\
  (forall e,
      appended = Raise e ->
      create_notion_page E recipe_name recipe_content w = (Raise e, w3, called)) /\
  (forall content_response,
      appended = Ok content_response ->
      (forall entries, content_response <> JDict entries) ->
      create_notion_page E recipe_name recipe_content w =
        (Raise (AttributeError content_response "get"), w3, called)).
Proof.
  intros Htoday Hcreate Hid Htruthy Happend called. subst called.
  rewrite create_notion_page_run, Htoday, Hcreate, Hid, Htruthy. cbn [negb].
  rewrite Happend. split; [|split].
  - intros content_response ->. cbn [py_get]. eexists. split.
    + rewrite <- app_assoc. reflexivity.
    + split.
      * intros ->. reflexivity.
      * intros Hflag.
        destruct (assoc "successfull" content_response) as [[| [|] | | | | |]|];
          try reflexivity.
        now contradiction Hflag.
  - intros e ->. reflexivity.
  - intros content_response -> Hshape.
    destruct content_response as [| | | | | |entries];
      try reflexivity.
    now contradiction (Hshape entries).
Qed.


End PublishingProperties.

Lemma publish_reports_the_flag_witness :
  exists line,
    create_notion_page (scripted append_refused) "ramen" "Boil." 0 =
      (Ok tt, 2,
       (create_page_events (scripted append_refused)
          {| year := 2024; month := 6; day := 1 |} "ramen" (Ok page_created)
        ++ [EvExecuteAction NOTION_ADD_PAGE_CONTENT
              (JDict [("parent_block_id", JStr "page-1");
                      ("content_block", JDict [("content", JStr "Boil.")])])
              (on_append append_refused)])
       ++ [EvPrint line])%list /\
    line = "âŒ Failed to add content. Response: {...}".
Proof.
  destruct (publish_reports_the_flag (scripted append_refused) "ramen" "Boil."
              0 0 1 2 {| year := 2024; month := 6; day := 1 |}
              page_created (JStr "page-1")
              (Ok (JDict [("successfull", JBool false); ("error", JStr "denied")])))
    as (Hdict & _ & _); try reflexivity.
  destruct (Hdict [("successfull", JBool false); ("error", JStr "denied")] eq_refl)
    as (line & Hrun & _ & Hline).
  exists line. split; [exact Hrun|]. apply Hline. discriminate.
Defined.


(** ** The driver *)

Lemma always_in (p : Event -> bool) (tr : list Event) (ev : Event) :
  always p tr -> In ev tr -> p ev = true.
Proof. unfold always. rewrite forallb_forall. auto. Qed.

Lemma count_app (p : Event -> bool) (tr1 tr2 : list Event) :
  count p (tr1 ++ tr2) = count p tr1 + count p tr2.
Proof. unfold count. now rewrite filter_app, length_app. Qed.

Lemma count_cons (p : Event -> bool) (ev : Event) (tr : list Event) :
  count p (ev :: tr) = (if p ev then 1 else 0) + count p tr.
Proof. unfold count. simpl. now destruct (p ev). Qed.

Lemma never_count (p : Event -> bool) (tr : list Event) :
  never p tr -> count p tr = 0.
Proof.
  unfold never, count. induction tr as [|ev tr IH]; simpl; [reflexivity|].
  intros H. apply orb_false_iff in H. destruct H as [Hev Htr].
  rewrite Hev. now apply IH.
Qed.

Lemma kinds_count (allowed p : Event -> bool) (tr : list Event) :
  (forall ev, allowed ev = true -> p ev = false) ->
  always allowed tr -> count p tr = 0.
Proof. intros Hdisj Hall. apply never_count. now apply (always_never allowed). Qed.

Section DriverSteps.

Variable E : Externals.


Lemma select_counts transcripts (w w' : World E) r tr :
  select_best_recipe E transcripts w = (r, w', tr) ->
  count is_complete tr <= 1.
Proof.
  unfold select_best_recipe. destruct transcripts as [|entry rest].
  - intros H. inversion H. cbn. lia.
  - unfold_run. cbv beta iota zeta.
    destruct (mapM _ (dict_keys (entry :: rest))) as [blocks | e];
      [|intros H; inversion H; cbn; lia].
    destruct (llm_complete E _ w) as [[response | e] w1]; intros H; inversion H;
      cbn; lia.
Qed.

Lemma search_counts query max_results (w w' : World E) r tr :
  search_youtube_videos_api E query max_results w = (r, w', tr) ->
  count is_build tr = 1 /\ count is_search tr <= 1.
Proof.
  destruct (youtube_build E (GOOGLE_API_KEY E) w) as [[[] | e] w1] eqn:Hbuild.
  - destruct (youtube_search_list_execute E query max_results w1)
      as [[search_response | e] w2] eqn:Hsearch.
    + rewrite (search_request_answers E _ _ _ _ _ _ Hbuild Hsearch).
      intros H; inversion H. cbn. lia.
    + rewrite (search_request_raises E _ _ _ _ _ _ Hbuild Hsearch).
      intros H; inversion H. cbn. lia.
  - rewrite (search_build_raises E _ _ _ _ _ Hbuild).
    intros H; inversion H. cbn. lia.
Qed.

End DriverSteps.

Section DriverTraces.

Variable E : Externals.

Lemma fetch_trace_kinds video_urls (w w' : World E) r tr :
  get_video_transcripts E video_urls w = (r, w', tr) ->
  always transcript_event tr.
Proof.
  intros Hrun.
  destruct (get_video_transcripts_spec E video_urls w) as (d & w1 & tr1 & Hspec & Hkinds & _).
  rewrite Hrun in Hspec. now replace tr with tr1 by congruence.
Qed.

Lemma fetch_trace_links video_urls (w w' : World E) r tr links res :
  get_video_transcripts E video_urls w = (r, w', tr) ->
  In (EvLoadData links res) tr ->
  exists url, links = [url] /\ In url video_urls.
Proof.
  intros Hrun Hin.
  destruct (get_video_transcripts_spec E video_urls w)
    as (d & w1 & tr1 & Hspec & _ & _ & Hloads & _).
  rewrite Hrun in Hspec. replace tr1 with tr in Hloads by congruence.
  exact (Hloads _ _ Hin).
Qed.

Lemma publish_trace_kinds recipe_name recipe_content (w w' : World E) r tr :
  create_notion_page E recipe_name recipe_content w = (r, w', tr) ->
  always publish_event tr.
Proof. intros Hrun. exact (proj1 (create_notion_page_calls E _ _ _ _ _ _ Hrun)). Qed.

End DriverTraces.

(** The paths through [main]: the publish step returned, the publish step
    raised, no recipe, the selector raised, the transcript step raised,
    no videos, the search step raised, the prompt raised. *)
Ltac main_cases Hrun :=
  rewrite main_run in Hrun;
  destruct (sys_input _ _ _) as [[recipe_name | e_input] w1] eqn:Hinput;
  [ destruct (search_youtube_videos_api _ recipe_name 3 w1)
      as [[[[|url urls] | e_search] w2] tr_search] eqn:Hsearch;
    [ | destruct (get_video_transcripts _ (url :: urls) w2)
          as [[[transcripts | e_fetch] w3] tr_fetch] eqn:Hfetch;
        [ destruct (select_best_recipe _ transcripts w3)
            as [[[best_recipe | e_select] w4] tr_select] eqn:Hselect;
          [ destruct (recipe_truthy best_recipe) eqn:Htruthy; cbn [negb] in Hrun;
            [ destruct (create_notion_page _ recipe_name (recipe_string best_recipe) w4)
                as [[[[] | e_publish] w5] tr_publish] eqn:Hpublish
            | ]
          | ]
        | ]
    | ]
  | ];
  inversion Hrun; subst; clear Hrun.

(** Splits the membership of an event in a trace of [main]. *)
Ltac in_trace H :=
  repeat match goal with
         | H' : In _ (main_events _) |- _ => cbn [main_events] in H'
         | H' : In _ (_ ++ _)%list |- _ =>
             apply in_app_or in H'; destruct H' as [H' | H']
         | H' : In _ (_ :: _) |- _ => destruct H' as [H' | H']
         | H' : In _ [] |- _ => contradiction H'
         end.

(** Closes the cases in which the event cannot be in that part of the
    trace. *)
Ltac foreign :=
  match goal with
  | H : False |- _ => contradiction H
  | H : @eq Event _ _ |- _ => discriminate H
  | Hs : search_youtube_videos_api _ _ _ _ = (_, _, ?t), H : In _ ?t |- _ =>
      let Hk := fresh in
      pose proof (always_in _ _ _ (search_trace_kinds _ _ _ _ _ _ _ Hs) H) as Hk;
      discriminate Hk
  | Hs : get_video_transcripts _ _ _ = (_, _, ?t), H : In _ ?t |- _ =>
      let Hk := fresh in
      pose proof (always_in _ _ _ (fetch_trace_kinds _ _ _ _ _ _ Hs) H) as Hk;
      discriminate Hk
  | Hs : select_best_recipe _ _ _ = (_, _, ?t), H : In _ ?t |- _ =>
      let Hk := fresh in
      pose proof (always_in _ _ _ (select_trace_kinds _ _ _ _ _ _ Hs) H) as Hk;
      discriminate Hk
  | Hs : create_notion_page _ _ _ _ = (_, _, ?t), H : In _ ?t |- _ =>
      let Hk := fresh in
      pose proof (always_in _ _ _ (publish_trace_kinds _ _ _ _ _ _ _ Hs) H) as Hk;
      discriminate Hk
  end.

Section DriverProperties.

Variable E : Externals.

(** X15: in every run of [main], each call of the transcript loader asks
    for exactly one link, and that link starts with the watch-URL prefix:
    the loader only sees URLs the search step built. *)
Theorem main_fetches_only_watch_urls (w w' : World E) (r : result unit)
        (tr : list Event) (links : list string) (res : result (list Document)) :
  main E w = (r, w', tr) ->
  In (EvLoadData links res) tr ->
  exists rest, links = ["https://www.youtube.com/watch?v=" ++ rest].
Proof.
  intros Hrun Hin.
  main_cases Hrun; in_trace Hin; try foreign;
    destruct (fetch_trace_links E _ _ _ _ _ _ _ Hfetch Hin) as (u & -> & Hu);
    pose proof (search_result_prefix E _ _ _ _ _ _ Hsearch) as Hprefix;
    rewrite Forall_forall in Hprefix;
    destruct (Hprefix u Hu) as [rest ->]; now exists rest.
Qed.

End DriverProperties.




Section DriverCounts.

Variable E : Externals.

Lemma search_counts_all query max_results (w w' : World E) r tr :
  search_youtube_videos_api E query max_results w = (r, w', tr) ->
  count is_build tr = 1 /\ count is_search tr <= 1 /\
  count is_complete tr = 0 /\ count is_create_page tr = 0 /\
  count is_append_content tr = 0.
Proof.
  intros Hrun. pose proof (search_trace_kinds _ _ _ _ _ _ _ Hrun) as Hk.
  destruct (search_counts E _ _ _ _ _ _ Hrun) as [Hb Hs].
  repeat split; try assumption; (eapply kinds_count; [|exact Hk]); by_kind.
Qed.

Lemma fetch_counts_all video_urls (w w' : World E) r tr :
  get_video_transcripts E video_urls w = (r, w', tr) ->
  count is_build tr = 0 /\ count is_search tr = 0 /\
  count is_complete tr = 0 /\ count is_create_page tr = 0 /\
  count is_append_content tr = 0.
Proof.
  intros Hrun. pose proof (fetch_trace_kinds _ _ _ _ _ _ Hrun) as Hk.
  repeat split; (eapply kinds_count; [|exact Hk]); by_kind.
Qed.

Lemma select_counts_all transcripts (w w' : World E) r tr :
  select_best_recipe E transcripts w = (r, w', tr) ->
  count is_build tr = 0 /\ count is_search tr = 0 /\
  count is_complete tr <= 1 /\ count is_create_page tr = 0 /\
  count is_append_content tr = 0.
Proof.
  intros Hrun. pose proof (select_trace_kinds _ _ _ _ _ _ Hrun) as Hk.
  pose proof (select_counts E _ _ _ _ _ Hrun) as Hc.
  repeat split; try assumption; (eapply kinds_count; [|exact Hk]); by_kind.
Qed.

Lemma publish_counts_all recipe_name recipe_content (w w' : World E) r tr :
  create_notion_page E recipe_name recipe_content w = (r, w', tr) ->
  count is_build tr = 0 /\ count is_search tr = 0 /\
  count is_complete tr = 0 /\ count is_create_page tr = 1 /\
  count is_append_content tr <= 1.
Proof.
  intros Hrun.
  destruct (create_notion_page_calls E _ _ _ _ _ _ Hrun) as (Hk & Hc & Ha & _).
  repeat split; try assumption; (eapply kinds_count; [|exact Hk]); by_kind.
Qed.

End DriverCounts.

Ltac count_steps :=
  repeat match goal with
         | H : search_youtube_videos_api _ _ _ _ = _ |- _ =>
             apply search_counts_all in H; destruct H as (? & ? & ? & ? & ?)
         | H : get_video_transcripts _ _ _ = _ |- _ =>
             apply fetch_counts_all in H; destruct H as (? & ? & ? & ? & ?)
         | H : select_best_recipe _ _ _ = _ |- _ =>
             apply select_counts_all in H; destruct H as (? & ? & ? & ? & ?)
         | H : create_notion_page _ _ _ _ = _ |- _ =>
             apply publish_counts_all in H; destruct H as (? & ? & ? & ? & ?)
         end.

Section DriverProperties2.

Variable E : Externals.


(** X16: a run of [main] builds the search client at most once and makes
    at most one search request, one completion call, one "create page"
    call and one "append content" call: nothing is retried and at most
    one page is created per run. *)
Theorem main_calls_each_service_once (w w' : World E) (r : result unit)
        (tr : list Event) :
  main E w = (r, w', tr) ->
  count is_build tr <= 1 /\
  count is_search tr <= 1 /\
  count is_complete tr <= 1 /\
  count is_create_page tr <= 1 /\
  count is_append_content tr <= 1.
Proof.
  intros Hrun.
  main_cases Hrun; unfold main_events;
    repeat (rewrite count_app || rewrite count_cons);
    cbn [is_build is_search is_complete is_create_page is_append_content];
    change (count is_build []) with 0; change (count is_search []) with 0;
    change (count is_complete []) with 0; change (count is_create_page []) with 0;
    change (count is_append_content []) with 0;
    count_steps; lia.
Qed.


End DriverProperties2.

Lemma main_fetches_only_watch_urls_witness :
  exists rest,
    ["https://www.youtube.com/watch?v=bbb"] = ["https://www.youtube.com/watch?v=" ++ rest].
Proof.
  eapply (main_fetches_only_watch_urls (scripted happy) 0 8 (Ok tt) _
            ["https://www.youtube.com/watch?v=bbb"] (on_load happy "bbb")).
  - vm_compute. reflexivity.
  - cbn [In]. do 9 right. left. reflexivity.
Defined.


Lemma main_calls_each_service_once_witness :
  exists tr,
    main (scripted happy) 0 = (Ok tt, 8, tr) /\
    count is_create_page tr <= 1 /\ count is_append_content tr <= 1.
Proof.
  eexists. split; [vm_compute; reflexivity|].
  eapply (main_calls_each_service_once (scripted happy) 0 8 (Ok tt)).
  vm_compute. reflexivity.
Defined.


(** ** The shape of a match *)

Lemma star_iter_keeps (k : nat) (greedy : bool) step :
  keeps k step -> forall n, keeps k (star_iter n greedy step).
Proof.
  intros Hstep n. induction n as [|n IH]; intros s caps rest caps' Hin.
  - destruct Hin as [Heq | []]. now inversion Heq.
  - cbn [star_iter] in Hin.
    assert (Hcases :
              (rest, caps') = (s, caps) \/
              In (rest, caps')
                 (flat_map (fun sc =>
                              if (String.length (fst sc) <? String.length s)%nat
                              then star_iter n greedy step (fst sc) (snd sc)
                              else [])
                           (step s caps))).
    { destruct greedy.
      - apply in_app_or in Hin. destruct Hin as [H | [H | []]]; [now right | now left].
      - destruct Hin as [H | H]; [now left | now right]. }
    destruct Hcases as [Heq | Hmore]; [now inversion Heq|].
    apply in_flat_map in Hmore. destruct Hmore as ([s1 c1] & Hfirst & Hrest).
    cbn [fst snd] in Hrest.
    destruct (String.length s1 <? String.length s)%nat; [|contradiction].
    rewrite (IH _ _ _ _ Hrest). exact (Hstep _ _ _ _ Hfirst).
Qed.

(** Matching changes only the groups the expression contains. *)
Lemma alternatives_keeps (k : nat) (r : regex) :
  has_group k r = false -> keeps k (alternatives r).
Proof.
  induction r as [|c|p|r1 IH1 r2 IH2|r1 IH1 r2 IH2|greedy r IH|n r IH];
    cbn [has_group]; intros Hk s caps rest caps' Hin; cbn [alternatives] in Hin.
  - destruct Hin as [Heq | []]. now inversion Heq.
  - destruct s as [|c' s]; [contradiction|].
    destruct (Ascii.eqb c' c); [|contradiction].
    destruct Hin as [Heq | []]. now inversion Heq.
  - destruct s as [|c' s]; [contradiction|].
    destruct (p c'); [|contradiction].
    destruct Hin as [Heq | []]. now inversion Heq.
  - apply orb_false_iff in Hk. destruct Hk as [Hk1 Hk2].
    apply in_flat_map in Hin. destruct Hin as ([s1 c1] & Hfirst & Hsecond).
    cbn [fst snd] in Hsecond.
    rewrite (IH2 Hk2 _ _ _ _ Hsecond). exact (IH1 Hk1 _ _ _ _ Hfirst).
  - apply orb_false_iff in Hk. destruct Hk as [Hk1 Hk2].
    apply in_app_or in Hin. destruct Hin as [Hin | Hin].
    + exact (IH1 Hk1 _ _ _ _ Hin).
    + exact (IH2 Hk2 _ _ _ _ Hin).
  - exact (star_iter_keeps k greedy _ (IH Hk) _ _ _ _ _ Hin).
  - apply orb_false_iff in Hk. destruct Hk as [Hn Hk].
    apply in_map_iff in Hin. destruct Hin as ([s1 c1] & Heq & Hin).
    cbn [fst snd] in Heq. inversion Heq; subst.
    unfold set_capture. rewrite Nat.eqb_sym, Hn. exact (IH Hk _ _ _ _ Hin).
Qed.

Lemma has_group_lit (k : nat) (p : string) : has_group k (lit p) = false.
Proof.
  induction p as [|c p IH]; [reflexivity|].
  destruct p as [|c' p]; [reflexivity|].
  change (lit (String c (String c' p))) with (Seq (Chr c) (lit (String c' p))).
  cbn [has_group]. exact IH.
Qed.

Lemma Matches_chr (c : ascii) (x : string) : Matches (Chr c) x -> x = String c "".
Proof. intros H. now inversion H. Qed.

(** What a match of the pattern reads, piece by piece, and what it
    records. *)
Lemma pattern_match_shape s rest caps :
  match_here pattern s = Some (rest, caps) ->
  exists title ws link,
    s = "**Title:** " ++ title ++ LF ++ ws ++ "**Link:** " ++ link ++ rest /\
    caps 1 = Some title /\
    caps 2 = Some link /\
    all_chars not_line_feed title = true /\
    Matches (Star true space) ws /\
    watch_url link.
Proof.
  unfold match_here, pattern. intros H. apply hd_error_in in H.
  apply alternatives_seq in H. destruct H as (s1 & c1 & H1 & H).
  apply alternatives_seq in H. destruct H as (s2 & c2 & H2 & H).
  apply alternatives_seq in H. destruct H as (s3 & c3 & H3 & H).
  apply alternatives_seq in H. destruct H as (s4 & c4 & H4 & H).
  apply alternatives_seq in H. destruct H as (s5 & c5 & H5 & H6).
  pose proof (alternatives_sound _ _ _ _ _ H1) as (x1 & -> & Hx1).
  apply Matches_lit in Hx1. subst x1.
  pose proof (alternatives_group _ _ _ _ _ _ H2) as (title & -> & Htitle & Hcap1).
  pose proof (alternatives_sound _ _ _ _ _ H3) as (x3 & -> & Hx3).
  apply Matches_chr in Hx3. subst x3.
  pose proof (alternatives_sound _ _ _ _ _ H4) as (ws & -> & Hws).
  pose proof (alternatives_sound _ _ _ _ _ H5) as (x5 & -> & Hx5).
  apply Matches_lit in Hx5. subst x5.
  pose proof (alternatives_group _ _ _ _ _ _ H6) as (link & -> & Hlink & Hcap2).
  exists title, ws, link. split; [reflexivity|]. split; [|split; [exact Hcap2|split; [|split]]].
  - rewrite (alternatives_keeps 1 (Group 2 link_regex)) with (1 := eq_refl) (2 := H6).
    rewrite (alternatives_keeps 1 (lit "**Link:** ")) with (1 := has_group_lit 1 _) (2 := H5).
    rewrite (alternatives_keeps 1 (Star true space)) with (1 := eq_refl) (2 := H4).
    rewrite (alternatives_keeps 1 (Chr (ascii_of_nat 10))) with (1 := eq_refl) (2 := H3).
    exact Hcap1.
  - exact (Matches_star_set false _ title Htitle).
  - exact Hws.
  - now apply Matches_link.
Qed.

Section Scanning.

Variable text : string.

Lemma scan_pairs (fuel : nat) : forall before s,
  text = before ++ s ->
  Forall (fun caps => occurs_as_pair text (group 1 caps) (group 2 caps)) (scan fuel pattern s).
Proof.
  induction fuel as [|fuel IH]; intros before s Htext; cbn [scan]; [constructor|].
  assert (Hnext : Forall (fun caps => occurs_as_pair text (group 1 caps) (group 2 caps))
                         match s with
                         | EmptyString => []
                         | String _ s' => scan fuel pattern s'
                         end).
  { destruct s as [|c s']; [constructor|].
    apply (IH (before ++ String c "")). rewrite append_assoc. exact Htext. }
  destruct (match_here pattern s) as [[rest caps]|] eqn:Hmatch; [|exact Hnext].
  destruct (pattern_match_shape _ _ _ Hmatch)
    as (title & ws & link & Hs & Hc1 & Hc2 & Htitle & Hws & Hlink).
  constructor.
  - unfold group. rewrite Hc1, Hc2. exists before, ws, rest.
    split; [now rewrite Htext, Hs | auto].
  - rewrite (pattern_match_advances _ _ _ Hmatch).
    apply (IH (before ++ "**Title:** " ++ title ++ LF ++ ws ++ "**Link:** " ++ link)).
    rewrite Htext, Hs. now rewrite !append_assoc.
Qed.

Lemma scan_without_marker (fuel : nat) : forall before s,
  text = before ++ s ->
  (forall a b, text <> a ++ "**Title:** " ++ b) ->
  scan fuel pattern s = [].
Proof.
  induction fuel as [|fuel IH]; intros before s Htext Hnone; cbn [scan]; [reflexivity|].
  destruct (match_here pattern s) as [[rest caps]|] eqn:Hmatch.
  - exfalso. destruct (pattern_match_shape _ _ _ Hmatch) as (title & ws & link & Hs & _).
    apply (Hnone before (title ++ LF ++ ws ++ "**Link:** " ++ link ++ rest)).
    now rewrite Htext, Hs.
  - destruct s as [|c s']; [reflexivity|].
    apply (IH (before ++ String c "")); [|exact Hnone].
    rewrite append_assoc. exact Htext.
Qed.

End Scanning.

(** X17: every pair [extract_video_links] returns stands in the text: the
    i-th title is what follows a title marker up to the end of its line
    (so it holds no line feed), and the i-th link is the watch URL that
    follows the link marker after that line feed and optional white
    space. *)
Theorem extracted_pairs_occur_in_text (text_response : string) :
  exists video_links titles,
    extract_video_links text_response = (video_links, titles) /\
    forall i title link,
      nth_error titles i = Some title ->
      nth_error video_links i = Some link ->
      exists before ws after,
        text_response =
          before ++ "**Title:** " ++ title ++ LF ++ ws ++ "**Link:** " ++ link ++ after /\
        all_chars not_line_feed title = true /\
        Matches (Star true space) ws /\
        watch_url link.
Proof.
  exists (map snd (findall pattern text_response)),
         (map fst (findall pattern text_response)).
  split.
  - unfold extract_video_links. cbv zeta. now rewrite append_loop.
  - intros i title link Htitle Hlink. rewrite nth_error_map in Htitle, Hlink.
    destruct (nth_error (findall pattern text_response) i) as [[t l]|] eqn:Hm;
      [|discriminate].
    cbn in Htitle, Hlink. inversion Htitle; inversion Hlink; subst t l.
    apply nth_error_In in Hm. unfold findall in Hm. apply in_map_iff in Hm.
    destruct Hm as (caps & Heq & Hin). inversion Heq; subst.
    pose proof (scan_pairs text_response (S (String.length text_response)) ""
                           text_response eq_refl) as Hall.
    rewrite Forall_forall in Hall. exact (Hall caps Hin).
Qed.

(** X18: a text in which the title marker does not occur gives two empty
    lists. *)
Theorem no_title_marker_no_links (text_response : string) :
  (forall before after, text_response <> before ++ "**Title:** " ++ after) ->
  extract_video_links text_response = ([], []).
Proof.
  intros Hnone. unfold extract_video_links, findall.
  now rewrite (scan_without_marker text_response _ "" text_response eq_refl Hnone).
Qed.

Lemma no_title_marker_no_links_witness :
  extract_video_links "pasta" = ([], []).
Proof.
  apply (no_title_marker_no_links "pasta").
  intros before after H. apply (f_equal String.length) in H.
  rewrite !length_append in H. simpl in H. lia.
Defined.

(** ** Reading a well-formed block *)

Lemma alternatives_lit (p s : string) (caps : captures) :
  alternatives (lit p) (p ++ s) caps = [(s, caps)].
Proof.
  revert s caps. induction p as [|c p IH]; intros s caps; [reflexivity|].
  destruct p as [|c' p].
  - cbn. now rewrite Ascii.eqb_refl.
  - change (lit (String c (String c' p))) with (Seq (Chr c) (lit (String c' p))).
    cbn [alternatives append]. rewrite Ascii.eqb_refl. cbn [flat_map fst snd].
    change (String c' (p ++ s)) with (String c' p ++ s). rewrite IH. reflexivity.
Qed.

(** Greedy repetition of a one-character step reads as far as it can. *)
Lemma star_greedy_munch step (good : ascii -> bool) :
  (forall a s caps, good a = true -> step (String a s) caps = [(s, caps)]) ->
  forall x after caps n,
    all_chars good x = true ->
    step after caps = [] ->
    String.length x <= n ->
    exists others,
      star_iter n true step (x ++ after) caps = (after, caps) :: others.
Proof.
  intros Hgood x after caps. induction x as [|a x IH]; intros n Hx Hafter Hn.
  - destruct n as [|n]; [now exists []|].
    cbn [star_iter append]. rewrite Hafter. now exists [].
  - destruct n as [|n]; [simpl in Hn; lia|].
    simpl in Hx. apply andb_true_iff in Hx. destruct Hx as [Ha Hx].
    cbn [star_iter append]. rewrite (Hgood a _ _ Ha). cbn [flat_map fst snd].
    replace (String.length (x ++ after) <? String.length (String a (x ++ after)))%nat
      with true by (symmetry; apply Nat.ltb_lt; simpl; lia).
    destruct (IH n Hx Hafter) as [others Hothers]; [simpl in Hn; lia|].
    rewrite Hothers. cbn [app]. eexists. reflexivity.
Qed.

Lemma dot_step (a : ascii) (s : string) (caps : captures) :
  not_line_feed a = true -> alternatives dot (String a s) caps = [(s, caps)].
Proof.
  intros H. unfold dot. cbn [alternatives]. unfold not_line_feed in H. now rewrite H.
Qed.

Lemma dot_stops (s : string) (caps : captures) :
  alternatives dot (LF ++ s) caps = [].
Proof. reflexivity. Qed.

(** Lazy repetition of [.] before a line feed: whatever follows is tried
    at every character of the line and can only go on at its end. *)
Lemma lazy_title (f : string * captures -> list (string * captures)) :
  (forall a s caps, not_line_feed a = true -> f (String a s, caps) = []) ->
  forall title rest caps n,
    all_chars not_line_feed title = true ->
    String.length title <= n ->
    flat_map f (star_iter n false (alternatives dot) (title ++ LF ++ rest) caps)
    = f (LF ++ rest, caps).
Proof.
  intros Hf title rest caps. induction title as [|a title IH]; intros n Htitle Hn.
  - destruct n as [|n]; cbn [append star_iter flat_map]; [now rewrite app_nil_r|].
    rewrite dot_stops. cbn [flat_map]. now rewrite app_nil_r.
  - destruct n as [|n]; [simpl in Hn; lia|].
    simpl in Htitle. apply andb_true_iff in Htitle. destruct Htitle as [Ha Htitle].
    cbn [star_iter append]. rewrite (dot_step a _ _ Ha). cbn [flat_map fst snd].
    replace (String.length (title ++ LF ++ rest)
             <? String.length (String a (title ++ LF ++ rest)))%nat
      with true by (symmetry; apply Nat.ltb_lt; simpl; lia).
    rewrite (Hf a _ _ Ha). cbn [app]. rewrite app_nil_r.
    apply IH; [exact Htitle | simpl in Hn; lia].
Qed.

Lemma space_step_ascii (a : ascii) (s : string) (caps : captures) :
  ascii_space a = true -> alternatives space (String a s) caps = [(s, caps)].
Proof.
  intros Ha. unfold space, bytes. cbn [map string_of_list_ascii lit alternatives flat_map app].
  rewrite Ha.
  assert (Hne : forall n, 128 <= n -> n < 256 -> Ascii.eqb a (ascii_of_nat n) = false).
  { intros n Hlo Hhi. destruct (Ascii.eqb_spec a (ascii_of_nat n)) as [->|]; [|reflexivity].
    exfalso. unfold ascii_space, in_range in Ha.
    rewrite nat_ascii_embedding in Ha by exact Hhi.
    apply orb_true_iff in Ha. destruct Ha as [Ha | Ha];
      apply andb_true_iff in Ha; destruct Ha as [_ Ha]; apply Nat.leb_le in Ha; lia. }
  rewrite (Hne 194), (Hne 225), (Hne 226), (Hne 227) by lia. reflexivity.
Qed.

Lemma space_step_star (s : string) (caps : captures) :
  alternatives space (String "*" s) caps = [].
Proof. reflexivity. Qed.

Lemma set_step (p : ascii -> bool) (a : ascii) (s : string) (caps : captures) :
  p a = true -> alternatives (Set_ p) (String a s) caps = [(s, caps)].
Proof. intros H. cbn. now rewrite H. Qed.

Lemma alternatives_Seq r1 r2 s caps :
  alternatives (Seq r1 r2) s caps
  = flat_map (fun sc => alternatives r2 (fst sc) (snd sc)) (alternatives r1 s caps).
Proof. reflexivity. Qed.

Lemma alternatives_Star greedy r s caps :
  alternatives (Star greedy r) s caps
  = star_iter (String.length s) greedy (alternatives r) s caps.
Proof. reflexivity. Qed.

Lemma alternatives_Group n r s caps :
  alternatives (Group n r) s caps
  = map (fun sc => (fst sc, set_capture n (consumed s (fst sc)) (snd sc)))
        (alternatives r s caps).
Proof. reflexivity. Qed.

Lemma line_feed_step (s : string) (caps : captures) :
  alternatives (Chr (ascii_of_nat 10)) (LF ++ s) caps = [(s, caps)].
Proof. reflexivity. Qed.

Lemma flat_map_one {A B} (f : A -> list B) (a : A) : flat_map f [a] = f a.
Proof. cbn. apply app_nil_r. Qed.

(** The link part on a link followed by nothing the class accepts. *)
Lemma link_part_reads id after caps :
  all_chars id_char id = true ->
  id <> "" ->
  alternatives (Set_ id_char) after caps = [] ->
  exists others,
    alternatives link_part ("**Link:** " ++ watch_prefix ++ id ++ after) caps
    = (after, set_capture 2 (watch_prefix ++ id) caps) :: others.
Proof.
  intros Hid Hne Hafter. unfold link_part.
  rewrite alternatives_Seq, alternatives_lit, flat_map_one. cbn [fst snd].
  rewrite alternatives_Group. unfold link_regex.
  rewrite alternatives_Seq, alternatives_lit, flat_map_one. cbn [fst snd].
  destruct id as [|a id]; [contradiction|].
  simpl in Hid. apply andb_true_iff in Hid. destruct Hid as [Ha Hid].
  unfold plus. rewrite alternatives_Seq.
  change (String a id ++ after) with (String a (id ++ after)).
  rewrite (set_step id_char a _ _ Ha), flat_map_one. cbn [fst snd].
  rewrite alternatives_Star.
  destruct (star_greedy_munch (alternatives (Set_ id_char)) id_char
              (set_step id_char) id after caps (String.length (id ++ after)) Hid Hafter)
    as [others Hothers]; [rewrite length_append; lia|].
  rewrite Hothers. cbn [map fst snd]. eexists. f_equal. f_equal. f_equal.
  change (watch_prefix ++ String a (id ++ after)) with (watch_prefix ++ String a id ++ after).
  rewrite <- append_assoc. apply consumed_append.
Qed.

(** The pattern on a well-formed block. *)
Lemma pattern_reads_block title ws id after :
  all_chars not_line_feed title = true ->
  all_chars ascii_space ws = true ->
  all_chars id_char id = true ->
  id <> "" ->
  alternatives (Set_ id_char) after no_captures = [] ->
  exists caps,
    match_here pattern
      ("**Title:** " ++ title ++ LF ++ ws ++ "**Link:** " ++ watch_prefix ++ id ++ after)
    = Some (after, caps) /\
    group 1 caps = title /\
    group 2 caps = watch_prefix ++ id.
Proof.
  intros Htitle Hws Hid Hne Hafter. unfold match_here, pattern.
  fold link_part. fold space_part. fold line_end_part.
  rewrite alternatives_Seq, alternatives_lit, flat_map_one. cbn [fst snd].
  rewrite alternatives_Seq, alternatives_Group, alternatives_Star.
  rewrite flat_map_concat_map, map_map, <- flat_map_concat_map. cbn [fst snd].
  rewrite (lazy_title
             (fun sc => alternatives line_end_part (fst sc)
                          (set_capture 1
                             (consumed (title ++ LF ++ ws ++ "**Link:** "
                                        ++ watch_prefix ++ id ++ after) (fst sc))
                             (snd sc)))).
  - cbn [fst snd]. set (caps1 := set_capture 1 _ no_captures).
    unfold line_end_part. rewrite alternatives_Seq, line_feed_step, flat_map_one.
    cbn [fst snd]. unfold space_part. rewrite alternatives_Seq, alternatives_Star.
    destruct (star_greedy_munch (alternatives space) ascii_space space_step_ascii
                ws ("**Link:** " ++ watch_prefix ++ id ++ after) caps1
                (String.length (ws ++ "**Link:** " ++ watch_prefix ++ id ++ after))
                Hws (space_step_star _ _))
      as [others Hothers]; [rewrite length_append; lia|].
    rewrite Hothers. cbn [flat_map fst snd].
    assert (Hafter1 : alternatives (Set_ id_char) after caps1 = []).
    { clear -Hafter. destruct after as [|a after]; [reflexivity|].
      cbn in *. destruct (id_char a); [discriminate | reflexivity]. }
    destruct (link_part_reads id after caps1 Hid Hne Hafter1) as [others' Hlink].
    rewrite Hlink. cbn [app hd_error]. eexists. split; [reflexivity|]. split.
    + unfold group, set_capture, caps1. cbn [Nat.eqb].
      unfold set_capture. cbn [Nat.eqb]. now rewrite consumed_append.
    + reflexivity.
  - intros a s caps Ha. cbn [fst snd]. unfold line_end_part.
    rewrite alternatives_Seq. cbn [alternatives].
    unfold not_line_feed in Ha. apply negb_true_iff in Ha. rewrite Ha. reflexivity.
  - exact Htitle.
  - rewrite !length_append. lia.
Qed.

Lemma pattern_needs_star (a : ascii) (s : string) :
  not_star a = true -> match_here pattern (String a s) = None.
Proof.
  intros Ha. unfold match_here, pattern. rewrite alternatives_Seq.
  change (lit "**Title:** ") with (Seq (Chr "*") (lit "*Title:** ")).
  rewrite alternatives_Seq. cbn [alternatives].
  unfold not_star in Ha. apply negb_true_iff in Ha. rewrite Ha. reflexivity.
Qed.

(** The scan passes over characters that cannot start a match. *)
Lemma scan_skips (before : string) :
  all_chars not_star before = true ->
  forall fuel s,
    scan (String.length before + fuel) pattern (before ++ s) = scan fuel pattern s.
Proof.
  induction before as [|a before IH]; intros Hbefore fuel s; [reflexivity|].
  simpl in Hbefore. apply andb_true_iff in Hbefore. destruct Hbefore as [Ha Hbefore].
  cbn [String.length Nat.add append scan]. rewrite (pattern_needs_star a _ Ha).
  exact (IH Hbefore fuel s).
Qed.

(** X19: a text that holds one block in the expected form is read back:
    after any characters other than [*], the title marker, a title
    without a line feed, a line feed, optional ASCII white space, the link
    marker and a watch URL, followed by nothing that could continue the
    URL or start another title, [extract_video_links] returns exactly
    that link and that title. *)
Theorem extract_reads_a_block (before title ws id after : string) :
  all_chars not_star before = true ->
  all_chars not_line_feed title = true ->
  all_chars ascii_space ws = true ->
  all_chars id_char id = true ->
  id <> "" ->
  (after = "" \/ exists a rest, after = String a rest /\ id_char a = false) ->
  (forall a b, after <> a ++ "**Title:** " ++ b) ->
  extract_video_links
    (before ++ "**Title:** " ++ title ++ LF ++ ws ++ "**Link:** "
     ++ "https://www.youtube.com/watch?v=" ++ id ++ after)
  = (["https://www.youtube.com/watch?v=" ++ id], [title]).
Proof.
  intros Hbefore Htitle Hws Hid Hne Hstop Hnone.
  assert (Hafter : alternatives (Set_ id_char) after no_captures = []).
  { destruct Hstop as [-> | (a & rest & -> & Ha)]; [reflexivity|]. cbn. now rewrite Ha. }
  destruct (pattern_reads_block title ws id after Htitle Hws Hid Hne Hafter)
    as (caps & Hmatch & Hg1 & Hg2).
  unfold extract_video_links, findall. cbv zeta.
  set (block := "**Title:** " ++ title ++ LF ++ ws ++ "**Link:** "
                ++ watch_prefix ++ id ++ after) in *.
  change (before ++ "**Title:** " ++ title ++ LF ++ ws ++ "**Link:** "
          ++ "https://www.youtube.com/watch?v=" ++ id ++ after)
    with (before ++ block).
  rewrite length_append.
  replace (S (String.length before + String.length block))
    with (String.length before + S (String.length block)) by lia.
  rewrite (scan_skips before Hbefore). cbn [scan]. rewrite Hmatch.
  replace (String.length after <? String.length block)%nat with true.
  - rewrite (scan_without_marker after _ "" after eq_refl Hnone).
    cbn [map fold_left app]. now rewrite Hg1, Hg2.
  - symmetry. apply Nat.ltb_lt. unfold block. rewrite !length_append. simpl. lia.
Qed.

Lemma extract_reads_a_block_witness :
  extract_video_links
    ("Try: " ++ "**Title:** " ++ "Easy Pasta" ++ LF ++ "  " ++ "**Link:** "
     ++ "https://www.youtube.com/watch?v=" ++ "abc_-123" ++ "")
  = (["https://www.youtube.com/watch?v=abc_-123"], ["Easy Pasta"]).
Proof.
  apply (extract_reads_a_block "Try: " "Easy Pasta" "  " "abc_-123" "");
    try reflexivity.
  - discriminate.
  - now left.
  - intros a b H. apply (f_equal String.length) in H.
    rewrite !length_append in H. simpl in H. lia.
Defined.
